(** * Somfy RTS decoder: a shallow embedding of src/devices/somfy.c

    The decoder callback [somfy_rts_callback] is transcribed stage by stage:
    the row scan, the preamble test, the Manchester decode, the descrambling
    loop, the nibble-folded checksum and the field extraction.  Bit positions
    and lengths are [nat]; byte values and integer fields are [Z], with the C
    casts written out. *)

From stdpp Require Import base list numbers strings pretty.
From Stdlib Require Import ZArith Lia.
Local Open Scope Z_scope.

(** ** Fixed-width integers *)

Definition uint8 (z : Z) : Z := z mod 256.
Definition uint16 (z : Z) : Z := z mod 65536.
Definition uint32 (z : Z) : Z := z mod 4294967296.

Definition is_byte (z : Z) : Prop := 0 <= z < 256.

(** ** The bit-row container (decoder.h / bitbuffer.h)

    A row is the sequence of its [bits_per_row] bits, short enough for the
    [uint16_t] that counts them; the storage behind a row is cleared before
    it is filled, so a bit read past the end is 0.
    The output buffer of the Manchester decode starts empty and only ever
    has its row 0 written, so it is carried as that row. *)

Module Bitbuffer.

Abbreviation bitrow := (list bool).

(** [bitbuffer_t]: [num_rows] is the length of the list, [bits_per_row[i]]
    the length of row [i]. *)
Abbreviation bitbuffer_t := (list (list bool)).

Definition num_rows (b : bitbuffer_t) : nat := length b.
Definition bits_per_row (b : bitbuffer_t) (i : nat) : nat := length (nth i b []).

(** The [bit(bits, i)] accessor of a row. *)
Definition bit (r : bitrow) (i : nat) : bool := nth i r false.

(** A byte string read MSB first, as the [bit] accessor reads a
    [const uint8_t *] pattern. *)
Definition bits_of_byte (b : Z) : bitrow :=
  map (fun k => Z.testbit b (7 - Z.of_nat k)) (seq 0 8).
Definition bits_of_bytes (bs : list Z) : bitrow := concat (map bits_of_byte bs).

Definition match_at (r : bitrow) (pos : nat) (pat : bitrow) : bool :=
  bool_decide (take (length pat) (drop pos r) = pat).

Fixpoint search_from (r pat : bitrow) (pos n : nat) : nat :=
  match n with
  | O => length r
  | S n' => if match_at r pos pat then pos else search_from r pat (S pos) n'
  end.

(** Modelled from the spec: [bitbuffer_search] of the bit-row container
    (bitbuffer.c is not among the sources): "an exact bit-pattern search"
    from bit offset [start] of the row.  It returns the offset of the first
    occurrence that lies inside the row, and the row length when there is
    none. *)
Definition bitbuffer_search (b : bitbuffer_t) (row start : nat)
    (pattern : list Z) (pattern_bits_len : nat) : nat :=
  let r := nth row b [] in
  search_from r (take pattern_bits_len (bits_of_bytes pattern)) start (length r - start).

(** One turn of the pair loop per unit of [n]; [ipos] advances by two raw
    bits per turn, also on the turn that meets a defect. *)
Fixpoint manchester_loop (n : nat) (bits : bitrow) (ipos len : nat) (out : bitrow)
    : nat * bitrow :=
  match n with
  | O => (ipos, out)
  | S n' =>
      if (ipos <? len)%nat then
        let bit1 := bit bits ipos in
        let bit2 := bit bits (ipos + 1) in
        if eqb bit1 bit2 then ((ipos + 2)%nat, out)
        else manchester_loop n' bits (ipos + 2) len (out ++ [bit2])
      else (ipos, out)
  end.

(** Modelled from the spec: [bitbuffer_manchester_decode] of the bit-row
    container (bitbuffer.c is not among the sources): "each logical bit
    consumes two raw bits, interpreted as low-high transition = 1, high-low
    transition = 0; any raw bit pair that is not a clean transition is a
    decode defect".  It decodes at most [max] logical bits from raw offset
    [start], appends them to [outbuf], stops at the first defect or at the
    end of the row, and returns the raw bit position it reached in the
    input row: the caller subtracts [data_start], a raw offset, from it. *)
Definition bitbuffer_manchester_decode (inbuf : bitbuffer_t) (row start : nat)
    (outbuf : bitrow) (max : nat) : nat * bitrow :=
  let bits := nth row inbuf [] in
  let len := length bits in
  let len := if (0 <? max)%nat && (start + max * 2 <? len)%nat
             then (start + max * 2)%nat else len in
  manchester_loop (len - start) bits start len outbuf.

Definition byte_at (r : bitrow) (pos : nat) : Z :=
  foldl (fun acc k => 2 * acc + Z.b2z (bit r (pos + k))) 0 (seq 0 8).

(** Modelled from the spec: [bitbuffer_extract_bytes] of the bit-row
    container (bitbuffer.c is not among the sources): "Produces 7 bytes from
    the 56 decoded bits (byte 0 first)"; [len] is a whole number of bytes
    at the call site. *)
Definition bitbuffer_extract_bytes (r : bitrow) (pos len : nat) : list Z :=
  map (fun j => byte_at r (pos + 8 * j)) (seq 0 (len / 8)).

End Bitbuffer.
Import Bitbuffer.

(** Modelled from the spec: [xor_bytes] of util.c (not among the sources):
    "XOR all 7 descrambled bytes together into one byte". *)
Definition xor_bytes (message : list Z) (num_bytes : nat) : Z :=
  foldl Z.lxor 0 (take num_bytes message).

(** ** Output records (data.h) *)

Inductive data_value :=
  | DATA_STRING (s : string)
  | DATA_INT (n : Z).

Record data_field := { key : string; pretty_key : string; value : data_value }.

Definition data_t := list data_field.

(** Modelled from the spec: [data_make] of data.c (not among the sources):
    the record is "a flat mapping of named fields to string/integer values";
    it holds the fields of the call, in argument order. *)
Definition data_make (fields : list (string * string * data_value)) : data_t :=
  map (fun f => {| key := f.1.1; pretty_key := f.1.2; value := f.2 |}) fields.

Definition data_keys (d : data_t) : list string := map key d.
Definition data_get (d : data_t) (k : string) : option data_value :=
  value <$> find (fun f => bool_decide (key f = k)) d.

(** What the callback returns: 1 on success ([DECODED]) or one of the two
    failure codes of decoder.h.  Next to it the callback yields the record it
    hands to [decoder_output_data], if any; the diagnostic line it prints
    under [verbose] is not part of either. *)
Inductive decode_ret := DECODED | DECODE_FAIL_SANITY | DECODE_FAIL_MIC.

(** ** somfy.c *)

Definition control_str : list string :=
  [ "? (0)"; "My (1)"; "Up (2)"; "My + Up (3)"; "Down (4)"; "My + Down (5)";
    "Up + Down (6)"; "? (7)"; "Prog (8)"; "Sun + Flag (9)"; "Flag (10)";
    "? (11)"; "? (12)"; "? (13)"; "? (14)"; "? (15)" ]%string.

(** The locals the row scan assigns. *)
Record scan_locals := {
  is_retransmission : Z;
  decode_row : nat;
  data_start : nat;
  preamble_pattern : list Z;
  preamble_pattern_bit_length : nat
}.

Definition scan_init : scan_locals :=
  {| is_retransmission := 0; decode_row := 0; data_start := 0;
     preamble_pattern := []; preamble_pattern_bit_length := 0 |}.

Definition retransmission_locals (i : nat) : scan_locals :=
  {| is_retransmission := 1; decode_row := i mod 256; data_start := 65;
     preamble_pattern := [0xf0; 0xf0; 0xf0; 0xf0; 0xf0; 0xf0; 0xf0; 0xff];
     preamble_pattern_bit_length := 64 |}.

Definition first_frame_locals (i : nat) : scan_locals :=
  {| is_retransmission := 0; decode_row := i mod 256; data_start := 25;
     preamble_pattern := [0xf0; 0xf0; 0xff];
     preamble_pattern_bit_length := 24 |}.

(** The [for] loop over the rows, from row [i] on; [decode_row] is a
    [uint8_t], so the index is stored modulo 256. *)
Fixpoint scan_rows (rows : list bitrow) (i : nat) : scan_locals :=
  match rows with
  | [] => scan_init
  | r :: rest =>
      if (170 <? length r)%nat then retransmission_locals i
      else if (130 <? length r)%nat then first_frame_locals i
      else scan_rows rest (S i)
  end.

(** The descrambling loop: [for (i = 6; i > 0; i--) m[i] = m[i] ^ m[i-1]]. *)
Definition descramble_step (m : list Z) (i : nat) : list Z :=
  <[ i := Z.lxor (nth i m 0) (nth (i - 1) m 0) ]> m.
Definition descramble (message_bytes : list Z) : list Z :=
  foldl descramble_step message_bytes [6; 5; 4; 3; 2; 1]%nat.

(** [(chksum_calc & 0xf) ^ (chksum_calc >> 4)], stored in a [uint8_t]. *)
Definition fold_to_nibble (chksum_calc : Z) : Z :=
  uint8 (Z.lxor (Z.land chksum_calc 0xf) (Z.shiftr chksum_calc 4)).

(** ["%02X"] of one byte. *)
Definition hex_digit (n : Z) : Ascii.ascii :=
  nth (Z.to_nat n) (String.list_ascii_of_string "0123456789ABCDEF") (Ascii.ascii_of_nat 48).
Definition hex02X (b : Z) : string :=
  String (hex_digit (b / 16)) (String (hex_digit (b mod 16)) EmptyString).

(** Lines 91-122: row scan, preamble test, Manchester decode, byte
    extraction and descrambling.  The result is the failure code, or the scan
    locals with the descrambled [message_bytes]. *)
Definition somfy_rts_frame (bitbuffer : bitbuffer_t) : decode_ret + scan_locals * list Z :=
  let l := scan_rows bitbuffer 0 in
  if (data_start l =? 0)%nat then inl DECODE_FAIL_SANITY
  else if negb (bitbuffer_search bitbuffer (decode_row l) 0 (preamble_pattern l)
                  (preamble_pattern_bit_length l) =? 0)%nat
  then inl DECODE_FAIL_SANITY
  else
    let '(ipos, bitbuffer_decoded) :=
      bitbuffer_manchester_decode bitbuffer (decode_row l) (data_start l) [] 56 in
    if (ipos - data_start l <? 56)%nat then inl DECODE_FAIL_MIC
    else
      let message_bytes := bitbuffer_extract_bytes bitbuffer_decoded 0 56 in
      inr (l, descramble message_bytes).

(** Lines 132-163: the fields of the record. *)
Definition somfy_rts_data (l : scan_locals) (message_bytes : list Z) : data_t :=
  let b i := nth i message_bytes 0 in
  let control := Z.shiftr (Z.land (b 1%nat) 0xf0) 4 in
  let counter := uint16 (Z.lor (b 3%nat) (Z.shiftl (b 2%nat) 8)) in
  let address_hex := (hex02X (b 4%nat) +:+ hex02X (b 5%nat) +:+ hex02X (b 6%nat))%string in
  let address_int_le :=
    uint32 (Z.lor (Z.lor (Z.shiftl (b 6%nat) 16) (Z.shiftl (b 5%nat) 8)) (b 4%nat)) in
  let retransmission : string := if is_retransmission l =? 0 then "FALSE" else "TRUE" in
  let control_label : string := nth (Z.to_nat control) control_str "" in
  data_make
    [ ("model", "", DATA_STRING "Somfy-RTS");
      ("id", "Id", DATA_INT address_int_le);
      ("control", "Control", DATA_STRING control_label);
      ("counter", "Counter", DATA_INT counter);
      ("address", "Address", DATA_STRING address_hex);
      ("retransmission", "Retransmission", DATA_STRING retransmission);
      ("mic", "Integrity", DATA_STRING "CHECKSUM") ]%string.

(** Lines 124-168: the checksum test and the output. *)
Definition somfy_rts_output (l : scan_locals) (message_bytes : list Z)
    : decode_ret * option data_t :=
  let chksum_calc := xor_bytes message_bytes 7 in
  let chksum_calc := fold_to_nibble chksum_calc in
  if negb (chksum_calc =? 0) then (DECODE_FAIL_MIC, None)
  else (DECODED, Some (somfy_rts_data l message_bytes)).

Definition somfy_rts_callback (bitbuffer : bitbuffer_t) : decode_ret * option data_t :=
  match somfy_rts_frame bitbuffer with
  | inl e => (e, None)
  | inr (l, message_bytes) => somfy_rts_output l message_bytes
  end.

Definition output_fields : list string :=
  [ "model"; "control"; "counter"; "address"; "retransmission" ]%string.

(** What the preamble test compares: the selected row and the bits of the
    variant's pattern. *)
Definition selected_row (bitbuffer : bitbuffer_t) : bitrow :=
  nth (decode_row (scan_rows bitbuffer 0)) bitbuffer [].
Definition preamble_bits (l : scan_locals) : bitrow :=
  take (preamble_pattern_bit_length l) (bits_of_bytes (preamble_pattern l)).

(** ** The sender's side, as the protocol notes of somfy.c describe it *)

(** "The data is scrambled by XORing each following byte with the last
    scrambled byte": byte 0 is the seed, [prev] the last scrambled byte. *)
Fixpoint scramble_from (prev : Z) (bs : list Z) : list Z :=
  match bs with
  | [] => []
  | b :: rest => let s := Z.lxor b prev in s :: scramble_from s rest
  end.
Definition scramble (bs : list Z) : list Z :=
  match bs with
  | [] => []
  | seed :: rest => seed :: scramble_from seed rest
  end.

(** "[_^] represents a 1 and [^_] represents a 0". *)
Definition manchester_encode (bits : bitrow) : bitrow :=
  concat (map (fun b : bool => if b then [false; true] else [true; false]) bits).

(** A frame row: the preamble, the low level that ends it, the payload. *)
Definition frame_row (l : scan_locals) (message_bytes : list Z) : bitrow :=
  preamble_bits l ++ [false] ++ manchester_encode (bits_of_bytes (scramble message_bytes)).

Definition flip_bit (r : bitrow) (i : nat) : bitrow := <[ i := negb (bit r i) ]> r.

(** The frame of the specification's scenario, as a first frame and as a
    retransmission that follows the row of the start pulse. *)
Definition demo_message : list Z := [0xA1; 0x2C; 0x00; 0x05; 0x01; 0x02; 0x03].
Definition demo_first : bitbuffer_t := [frame_row (first_frame_locals 0) demo_message].
Definition demo_retransmission : bitbuffer_t :=
  [replicate 16 true; frame_row (retransmission_locals 0) demo_message].

(** ** The checksum as the specification words it *)

(** "XOR all 7 descrambled bytes together into one byte, then fold by XORing
    its high nibble into its low nibble". *)
Definition xor_all (bs : list Z) : Z := foldr Z.lxor 0 bs.
Definition nibble_fold (x : Z) : Z := Z.lxor (x / 16) (x mod 16).
Definition checksum_fold (bs : list Z) : Z := nibble_fold (xor_all bs).

(** Byte 1 with its low (checksum) nibble replaced by [c]. *)
Definition with_chksum_nibble (bs : list Z) (c : Z) : list Z :=
  <[ 1%nat := 16 * (nth 1 bs 0 / 16) + c ]> bs.

(** The row choice as the specification words it: "the first row whose
    length exceeds 170 bits (variant = Retransmission) or, failing that, the
    first row whose length exceeds 130 bits (variant = First frame)". *)
Fixpoint first_longer (n : nat) (rows : list bitrow) (i : nat) : option nat :=
  match rows with
  | [] => None
  | r :: rest => if (n <? length r)%nat then Some i else first_longer n rest (S i)
  end.
Definition longest_first_choice (rows : list bitrow) : scan_locals :=
  match first_longer 170 rows 0 with
  | Some i => retransmission_locals i
  | None =>
      match first_longer 130 rows 0 with
      | Some i => first_frame_locals i
      | None => scan_init
      end
  end.

(** A capture with a first-frame row ahead of a retransmission row. *)
Definition other_message : list Z := [0x5A; 0x4B; 0x01; 0x00; 0x0A; 0x0B; 0x0C].
Definition two_candidates : bitbuffer_t :=
  [frame_row (first_frame_locals 0) demo_message;
   frame_row (retransmission_locals 0) other_message].

(** A first frame that reaches the decoder one raw bit late. *)
Definition shifted_first : bitbuffer_t := [false :: frame_row (first_frame_locals 0) demo_message].

(** The key list as the specification words it. *)
Definition stated_keys : list string :=
  [ "model"; "id"; "control"; "counter"; "address"; "retransmission"; "integrity" ]%string.

(** The labels as the specification words them: a placeholder for the
    unknown codes, a name for the commands. *)
Definition unknown_label (code : Z) : string := ("? (" +:+ pretty code +:+ ")")%string.
Definition stated_unknown_codes : list Z := [0; 7; 11; 12; 13; 14].
Definition named_commands : list (Z * string) :=
  [ (1, "My (1)"); (2, "Up (2)"); (3, "My + Up (3)"); (4, "Down (4)");
    (5, "My + Down (5)"); (6, "Up + Down (6)"); (8, "Prog (8)");
    (9, "Sun + Flag (9)"); (10, "Flag (10)") ]%string.

(** A frame with control code 15. *)
Definition code15_message : list Z := [0xA1; 0xF1; 0x00; 0x05; 0x01; 0x02; 0x03].
Definition code15_first : bitbuffer_t := [frame_row (first_frame_locals 0) code15_message].

(** A valid first frame with one raw payload bit flipped: raw bit 60 of the
    112-bit Manchester section, inside the pair of logical bit 30. *)
Definition corrupted_first : bitbuffer_t :=
  [flip_bit (frame_row (first_frame_locals 0) demo_message) (25 + 60)].

(** The message a remote sends, as the protocol notes of somfy.c lay it out:
    "byte 0: ... the seed for the scrambler; byte 1: The higher nibble
    represents the control command, the lower nibble is the frame's checksum
    calculated by XORing all nibbles; byte 2-3: Replay counter value in big
    endian byte order; byte 4-6: Remote control channel's address". *)
Definition frame_message (seed control counter a4 a5 a6 : Z) : list Z :=
  let unchecked := [seed; 16 * control; counter / 256; counter mod 256; a4; a5; a6] in
  with_chksum_nibble unchecked (checksum_fold unchecked).

(** The record of a frame with these fields. *)
Definition fields_record (l : scan_locals) (control counter a4 a5 a6 : Z) : data_t :=
  let retransmission : string := if is_retransmission l =? 0 then "FALSE" else "TRUE" in
  let control_label : string := nth (Z.to_nat control) control_str "" in
  let address_hex := (hex02X a4 +:+ hex02X a5 +:+ hex02X a6)%string in
  data_make
    [ ("model", "", DATA_STRING "Somfy-RTS");
      ("id", "Id", DATA_INT (a6 * 65536 + a5 * 256 + a4));
      ("control", "Control", DATA_STRING control_label);
      ("counter", "Counter", DATA_INT counter);
      ("address", "Address", DATA_STRING address_hex);
      ("retransmission", "Retransmission", DATA_STRING retransmission);
      ("mic", "Integrity", DATA_STRING "CHECKSUM") ]%string.

(** One nibble of a message changed: byte [i] XORed with a nonzero [delta]
    that lies in its low or in its high nibble. *)
Definition in_one_nibble (delta : Z) : Prop :=
  is_byte delta /\ delta <> 0 /\ (delta < 16 \/ delta mod 16 = 0).

(** Proof steps used throughout: a list of length 7 taken apart, and an
    equation between XOR terms settled bit by bit. *)
Ltac list7 m H :=
  destruct m as [|?b [|?b [|?b [|?b [|?b [|?b [|?b [|? ?]]]]]]]];
  try discriminate H; clear H.

Ltac xor_bits :=
  apply Z.bits_inj'; intros ?n ?Hn;
  rewrite ?Z.lxor_spec, ?Z.bits_0;
  repeat match goal with |- context [Z.testbit ?x ?n] => destruct (Z.testbit x n) end;
  reflexivity.

(** * Properties *)

(** ** Bytes and bitwise arithmetic *)

Lemma forall_byte (P : Z -> bool) :
  forallb P (map Z.of_nat (seq 0 256)) = true -> forall z, is_byte z -> P z = true.
Proof.
  intros H z [Hlo Hhi].
  rewrite forallb_forall in H. apply H.
  rewrite <- (Z2Nat.id z) by lia.
  apply in_map, in_seq. lia.
Qed.

Lemma forall_byte2 (P : Z -> Z -> bool) :
  forallb (fun a => forallb (P a) (map Z.of_nat (seq 0 256))) (map Z.of_nat (seq 0 256)) = true ->
  forall a b, is_byte a -> is_byte b -> P a b = true.
Proof.
  intros H a b Ha Hb.
  apply (forall_byte (P a)); [|exact Hb].
  exact (forall_byte (fun a => forallb (P a) (map Z.of_nat (seq 0 256))) H a Ha).
Qed.

Lemma Forall_is_byte_check (l : list Z) :
  forallb (fun x => (0 <=? x) && (x <? 256)) l = true -> Forall is_byte l.
Proof.
  intros H. apply List.Forall_forall. intros x Hx.
  rewrite forallb_forall in H. specialize (H x Hx). unfold is_byte. lia.
Qed.

Lemma lxor_cancel_r (x y : Z) : Z.lxor (Z.lxor x y) y = x.
Proof. by rewrite Z.lxor_assoc, Z.lxor_nilpotent, Z.lxor_0_r. Qed.

Lemma lxor_byte (a b : Z) : is_byte a -> is_byte b -> is_byte (Z.lxor a b).
Proof.
  intros Ha Hb.
  pose proof (forall_byte2 (fun a b => (0 <=? Z.lxor a b) && (Z.lxor a b <? 256))
                ltac:(vm_compute; reflexivity) a b Ha Hb) as H.
  simpl in H.
  apply andb_true_iff in H as [H1 H2]. unfold is_byte. lia.
Qed.

Lemma fold_to_nibble_byte (x : Z) : is_byte x -> fold_to_nibble x = nibble_fold x.
Proof.
  intros Hx.
  pose proof (forall_byte (fun x => fold_to_nibble x =? nibble_fold x)
                ltac:(vm_compute; reflexivity) x Hx) as H.
  simpl in H. lia.
Qed.

(** ** Descrambling *)

Lemma descramble_7 (s0 s1 s2 s3 s4 s5 s6 : Z) :
  descramble [s0; s1; s2; s3; s4; s5; s6]
  = [s0; Z.lxor s1 s0; Z.lxor s2 s1; Z.lxor s3 s2; Z.lxor s4 s3; Z.lxor s5 s4; Z.lxor s6 s5].
Proof. reflexivity. Qed.

Lemma descramble_length (m : list Z) : length (descramble m) = length m.
Proof.
  unfold descramble, descramble_step. simpl. by rewrite !length_insert.
Qed.

Lemma descramble_bytes (m : list Z) :
  length m = 7%nat -> Forall is_byte m -> Forall is_byte (descramble m).
Proof.
  intros Hlen Hb. list7 m Hlen. rewrite descramble_7.
  repeat match goal with H : Forall _ (_ :: _) |- _ => apply Forall_cons in H as [? H] end.
  repeat (apply Forall_cons; split; [first [assumption | by apply lxor_byte] |]).
  apply Forall_nil. tauto.
Qed.

Lemma xor_bytes_descramble_7 (s0 s1 s2 s3 s4 s5 s6 : Z) :
  xor_bytes (descramble [s0; s1; s2; s3; s4; s5; s6]) 7 = s6.
Proof.
  rewrite descramble_7. unfold xor_bytes. simpl. xor_bits.
Qed.

Lemma xor_bytes_xor_all (d : list Z) : length d = 7%nat -> xor_bytes d 7 = xor_all d.
Proof.
  intros Hlen. list7 d Hlen. unfold xor_bytes, xor_all. simpl. xor_bits.
Qed.

Lemma xor_all_byte (d : list Z) : Forall is_byte d -> is_byte (xor_all d).
Proof.
  induction 1 as [|x d Hx _ IH]; simpl.
  - unfold is_byte. lia.
  - by apply lxor_byte.
Qed.

Lemma descramble_scramble_7 (b0 b1 b2 b3 b4 b5 b6 : Z) :
  descramble (scramble [b0; b1; b2; b3; b4; b5; b6]) = [b0; b1; b2; b3; b4; b5; b6].
Proof.
  unfold scramble. simpl scramble_from. rewrite descramble_7.
  by rewrite !lxor_cancel_r.
Qed.

(** C4: scrambling a 7-byte array (byte 0 the seed, every later byte XORed
    with the previous scrambled byte) and then running the decoder's
    descrambling loop gives the array back.  It holds for any seven values,
    so for any seven bytes. *)
Theorem descramble_scramble (b : list Z) :
  length b = 7%nat -> descramble (scramble b) = b.
Proof.
  intros Hlen. list7 b Hlen. apply descramble_scramble_7.
Qed.

Lemma descramble_scramble_witness :
  length demo_message = 7%nat /\ descramble (scramble demo_message) = demo_message.
Proof.
  split; [reflexivity | apply (descramble_scramble demo_message); reflexivity].
Defined.

(** ** What the first stages hand to the checksum *)

Lemma b2z_bounds (b : bool) : 0 <= Z.b2z b <= 1.
Proof. destruct b; simpl; lia. Qed.

Lemma byte_at_byte (r : bitrow) (pos : nat) : is_byte (byte_at r pos).
Proof.
  unfold byte_at, is_byte. simpl.
  repeat match goal with
         | |- context [Z.b2z ?b] =>
             pose proof (b2z_bounds b); generalize dependent (Z.b2z b); intros
         end.
  lia.
Qed.

Lemma extract_bytes_56 (r : bitrow) :
  length (bitbuffer_extract_bytes r 0 56) = 7%nat
  /\ Forall is_byte (bitbuffer_extract_bytes r 0 56).
Proof.
  split; [reflexivity |].
  unfold bitbuffer_extract_bytes. apply List.Forall_forall. intros x Hx.
  apply in_map_iff in Hx as (j & <- & _). apply byte_at_byte.
Qed.

Lemma somfy_rts_frame_inr (bitbuffer : bitbuffer_t) (l : scan_locals) (d : list Z) :
  somfy_rts_frame bitbuffer = inr (l, d) ->
  l = scan_rows bitbuffer 0 /\ length d = 7%nat /\ Forall is_byte d.
Proof.
  unfold somfy_rts_frame.
  destruct (data_start _ =? 0)%nat; [discriminate |].
  destruct (negb _); [discriminate |].
  destruct (bitbuffer_manchester_decode _ _ _ _ _) as [ipos dec].
  destruct (_ <? _)%nat; [discriminate |].
  intros [= <- <-].
  destruct (extract_bytes_56 dec) as [Hlen Hb].
  split; [reflexivity |]. split.
  - by rewrite descramble_length.
  - by apply descramble_bytes.
Qed.

Lemma somfy_rts_output_spec (l : scan_locals) (d : list Z) :
  length d = 7%nat -> Forall is_byte d ->
  somfy_rts_output l d
  = if checksum_fold d =? 0 then (DECODED, Some (somfy_rts_data l d))
    else (DECODE_FAIL_MIC, None).
Proof.
  intros Hlen Hb. unfold somfy_rts_output, checksum_fold.
  rewrite (xor_bytes_xor_all d Hlen), (fold_to_nibble_byte _ (xor_all_byte d Hb)).
  by destruct (nibble_fold (xor_all d) =? 0).
Qed.

Lemma somfy_rts_callback_frame (bitbuffer : bitbuffer_t) (l : scan_locals) (d : list Z) :
  somfy_rts_frame bitbuffer = inr (l, d) ->
  somfy_rts_callback bitbuffer
  = if checksum_fold d =? 0 then (DECODED, Some (somfy_rts_data l d))
    else (DECODE_FAIL_MIC, None).
Proof.
  intros H. destruct (somfy_rts_frame_inr _ _ _ H) as (_ & Hlen & Hb).
  unfold somfy_rts_callback. rewrite H. by apply somfy_rts_output_spec.
Qed.

(** Every success of the callback comes from a frame whose descrambled
    bytes pass the checksum. *)
Lemma somfy_rts_callback_decoded (bitbuffer : bitbuffer_t) (rec : data_t) :
  (somfy_rts_callback bitbuffer).2 = Some rec ->
  exists l d, somfy_rts_frame bitbuffer = inr (l, d)
              /\ length d = 7%nat /\ Forall is_byte d
              /\ checksum_fold d = 0 /\ rec = somfy_rts_data l d.
Proof.
  intros H.
  destruct (somfy_rts_frame bitbuffer) as [e | [l d]] eqn:Hf.
  - unfold somfy_rts_callback in H. rewrite Hf in H. discriminate.
  - destruct (somfy_rts_frame_inr _ _ _ Hf) as (_ & Hlen & Hb).
    rewrite (somfy_rts_callback_frame _ _ _ Hf) in H.
    destruct (checksum_fold d =? 0) eqn:Hc; [| discriminate].
    injection H as <-. exists l, d. repeat split; try assumption. lia.
Qed.

(** ** The checksum *)

Lemma nibble_fold_lxor (a b : Z) :
  is_byte a -> is_byte b ->
  nibble_fold (Z.lxor a b) = Z.lxor (nibble_fold a) (nibble_fold b).
Proof.
  intros Ha Hb.
  pose proof (forall_byte2
    (fun a b => nibble_fold (Z.lxor a b) =? Z.lxor (nibble_fold a) (nibble_fold b))
    ltac:(vm_compute; reflexivity) a b Ha Hb) as H.
  cbv beta in H. lia.
Qed.

Lemma nibble_replace (b1 c : Z) :
  is_byte b1 -> 0 <= c < 16 -> c <> b1 mod 16 ->
  nibble_fold (16 * (b1 / 16) + c) <> nibble_fold b1.
Proof.
  intros Hb1 Hc Hne.
  pose proof (forall_byte
    (fun b1 => forallb (fun c =>
       implb (negb (c =? b1 mod 16))
         (negb (nibble_fold (16 * (b1 / 16) + c) =? nibble_fold b1)))
       (map Z.of_nat (seq 0 16)))
    ltac:(vm_compute; reflexivity) b1 Hb1) as H.
  cbv beta in H. rewrite forallb_forall in H.
  assert (Hin : In c (map Z.of_nat (seq 0 16))).
  { rewrite <- (Z2Nat.id c) by lia. apply in_map, in_seq. lia. }
  specialize (H c Hin).
  destruct (c =? b1 mod 16) eqn:E2; [lia |].
  simpl in H. lia.
Qed.

Lemma wrong_nibble_byte (b1 y c : Z) :
  is_byte b1 -> is_byte y -> 0 <= c < 16 ->
  nibble_fold (Z.lxor b1 y) = 0 -> c <> b1 mod 16 ->
  nibble_fold (Z.lxor (16 * (b1 / 16) + c) y) <> 0.
Proof.
  intros Hb1 Hy Hc H0 Hne.
  assert (Hb1' : is_byte (16 * (b1 / 16) + c)).
  { unfold is_byte in *. pose proof (Z.mod_pos_bound b1 16).
    pose proof (Z.div_mod b1 16). lia. }
  rewrite nibble_fold_lxor in H0 |- * by assumption.
  apply Z.lxor_eq in H0. rewrite <- H0.
  intros H. apply Z.lxor_eq in H. by apply (nibble_replace b1 c).
Qed.

Lemma wrong_nibble_detected (d : list Z) (c : Z) :
  length d = 7%nat -> Forall is_byte d -> 0 <= c < 16 ->
  checksum_fold d = 0 -> c <> nth 1 d 0 mod 16 ->
  checksum_fold (with_chksum_nibble d c) <> 0.
Proof.
  intros Hlen Hb Hc H0 Hne. list7 d Hlen.
  apply Forall_cons in Hb as [Hb0 Hb]. apply Forall_cons in Hb as [Hb1 Hb].
  unfold with_chksum_nibble, checksum_fold in *. simpl in *.
  set (R := Z.lxor b1 (Z.lxor b2 (Z.lxor b3 (Z.lxor b4 (Z.lxor b5 0))))) in *.
  assert (HR : is_byte (Z.lxor b R)).
  { apply lxor_byte; [assumption |]. apply (xor_all_byte _ Hb). }
  replace (Z.lxor b (Z.lxor b0 R)) with (Z.lxor b0 (Z.lxor b R)) in H0 by xor_bits.
  replace (Z.lxor b (Z.lxor (16 * (b0 / 16) + c) R))
    with (Z.lxor (16 * (b0 / 16) + c) (Z.lxor b R)) by xor_bits.
  by apply wrong_nibble_byte.
Qed.

(** C3: a frame whose descrambled bytes are [d] gets past the checksum
    stage exactly when XORing the 7 bytes into one byte and XORing that
    byte's high nibble into its low nibble gives 0; otherwise the callback
    fails with DECODE_FAIL_MIC and outputs nothing.  In particular a frame
    whose checksum nibble (low nibble of descrambled byte 1) differs from the
    correct one is rejected. *)
Theorem checksum_acceptance (bitbuffer : bitbuffer_t) (l : scan_locals) (d : list Z) :
  somfy_rts_frame bitbuffer = inr (l, d) ->
  (somfy_rts_callback bitbuffer = (DECODED, Some (somfy_rts_data l d)) <-> checksum_fold d = 0)
  /\ (checksum_fold d <> 0 -> somfy_rts_callback bitbuffer = (DECODE_FAIL_MIC, None))
  /\ (forall (c : Z) (bitbuffer' : bitbuffer_t) (l' : scan_locals),
        checksum_fold d = 0 -> 0 <= c < 16 -> c <> nth 1 d 0 mod 16 ->
        somfy_rts_frame bitbuffer' = inr (l', with_chksum_nibble d c) ->
        somfy_rts_callback bitbuffer' = (DECODE_FAIL_MIC, None)).
Proof.
  intros Hf. destruct (somfy_rts_frame_inr _ _ _ Hf) as (_ & Hlen & Hb).
  rewrite (somfy_rts_callback_frame _ _ _ Hf).
  split; [| split].
  - destruct (checksum_fold d =? 0) eqn:E; split; intros H; try lia; try reflexivity.
    discriminate.
  - intros Hne. destruct (checksum_fold d =? 0) eqn:E; [lia | reflexivity].
  - intros c bitbuffer' l' H0 Hc Hne Hf'.
    rewrite (somfy_rts_callback_frame _ _ _ Hf').
    pose proof (wrong_nibble_detected d c Hlen Hb Hc H0 Hne) as Hbad.
    destruct (checksum_fold (with_chksum_nibble d c) =? 0) eqn:E; [lia | reflexivity].
Qed.

Lemma checksum_acceptance_witness :
  somfy_rts_frame demo_first = inr (first_frame_locals 0, demo_message)
  /\ somfy_rts_callback demo_first
     = (DECODED, Some (somfy_rts_data (first_frame_locals 0) demo_message))
  /\ somfy_rts_callback [frame_row (first_frame_locals 0) (with_chksum_nibble demo_message 13)]
     = (DECODE_FAIL_MIC, None).
Proof.
  assert (Hf : somfy_rts_frame demo_first = inr (first_frame_locals 0, demo_message))
    by (vm_compute; reflexivity).
  destruct (checksum_acceptance demo_first (first_frame_locals 0) demo_message Hf)
    as (Hok & _ & Hbad).
  split; [exact Hf |]. split.
  - apply Hok. vm_compute; reflexivity.
  - apply (Hbad 13 _ (first_frame_locals 0)); try (vm_compute; reflexivity).
    + lia.
    + vm_compute. discriminate.
Defined.

(** C10: after the descrambling loop the XOR of the 7 bytes is the byte 6
    the loop started from, so the checksum test passes exactly when the
    nibble fold of that byte is 0, and flipping a bit of any one of the bytes
    0 to 5 before descrambling leaves the computed checksum unchanged. *)
Theorem checksum_telescopes (l : scan_locals) (m : list Z) :
  length m = 7%nat -> Forall is_byte m ->
  xor_bytes (descramble m) 7 = nth 6 m 0
  /\ (fold_to_nibble (xor_bytes (descramble m) 7) = 0 <-> nibble_fold (nth 6 m 0) = 0)
  /\ ((somfy_rts_output l (descramble m)).1 = DECODED <-> nibble_fold (nth 6 m 0) = 0)
  /\ (forall (i : nat) (k : Z), (i < 6)%nat -> 0 <= k < 8 ->
        fold_to_nibble (xor_bytes (descramble (<[ i := Z.lxor (nth i m 0) (2 ^ k) ]> m)) 7)
        = fold_to_nibble (xor_bytes (descramble m) 7)).
Proof.
  intros Hlen Hb. list7 m Hlen.
  assert (Hb6 : is_byte b5).
  { do 6 apply Forall_cons in Hb as [_ Hb]. by apply Forall_cons in Hb as [? _]. }
  split; [| split; [| split]].
  - apply xor_bytes_descramble_7.
  - rewrite xor_bytes_descramble_7. cbn [nth]. by rewrite fold_to_nibble_byte.
  - unfold somfy_rts_output. rewrite xor_bytes_descramble_7. cbn [nth].
    rewrite fold_to_nibble_byte by assumption.
    destruct (nibble_fold b5 =? 0) eqn:E; simpl; split; intros H; try lia; try reflexivity.
    discriminate.
  - intros i k Hi Hk.
    do 6 (destruct i as [| i]; [cbn [nth insert list_insert]; by rewrite !xor_bytes_descramble_7 |]).
    lia.
Qed.

Lemma checksum_telescopes_witness :
  (length (scramble demo_message) = 7%nat /\ Forall is_byte (scramble demo_message))
  /\ xor_bytes (descramble (scramble demo_message)) 7 = nth 6 (scramble demo_message) 0
  /\ fold_to_nibble
       (xor_bytes (descramble (<[ 2%nat := Z.lxor (nth 2 (scramble demo_message) 0) (2 ^ 5) ]>
                                 (scramble demo_message))) 7)
     = fold_to_nibble (xor_bytes (descramble (scramble demo_message)) 7).
Proof.
  assert (Hlen : length (scramble demo_message) = 7%nat) by reflexivity.
  assert (Hb : Forall is_byte (scramble demo_message)).
  { apply Forall_is_byte_check. vm_compute; reflexivity. }
  destruct (checksum_telescopes scan_init (scramble demo_message) Hlen Hb)
    as (Hx & _ & _ & Hflip).
  split; [by split |]. split; [exact Hx |].
  apply (Hflip 2%nat 5); lia.
Defined.

(** ** The row scan *)

Lemma scan_rows_none (rows : list bitrow) (i : nat) :
  Forall (fun r : bitrow => (length r <= 130)%nat) rows -> scan_rows rows i = scan_init.
Proof.
  intros H. revert i. induction H as [| r rows Hr _ IH]; intros i; simpl; [reflexivity |].
  destruct (Nat.ltb_spec 170 (length r)); [lia |].
  destruct (Nat.ltb_spec 130 (length r)); [lia |].
  apply IH.
Qed.

Lemma scan_rows_skip (pre rows : list bitrow) (i : nat) :
  Forall (fun r : bitrow => (length r <= 130)%nat) pre ->
  scan_rows (pre ++ rows) i = scan_rows rows (i + length pre).
Proof.
  intros H. revert i. induction H as [| r pre Hr _ IH]; intros i; simpl.
  - f_equal. lia.
  - destruct (Nat.ltb_spec 170 (length r)); [lia |].
    destruct (Nat.ltb_spec 130 (length r)); [lia |].
    rewrite IH. f_equal. lia.
Qed.

Lemma scan_rows_at (bitbuffer : bitbuffer_t) (i : nat) :
  (i < num_rows bitbuffer)%nat ->
  (130 < bits_per_row bitbuffer i)%nat ->
  (forall j, (j < i)%nat -> (bits_per_row bitbuffer j <= 130)%nat) ->
  scan_rows bitbuffer 0
  = if (170 <? bits_per_row bitbuffer i)%nat
    then retransmission_locals i else first_frame_locals i.
Proof.
  unfold num_rows, bits_per_row. intros Hi Hlen Hbefore.
  rewrite <- (take_drop i bitbuffer) at 1.
  assert (Hpre : Forall (fun r : bitrow => (length r <= 130)%nat) (take i bitbuffer)).
  { apply Forall_lookup. intros j r Hj.
    apply lookup_take_Some in Hj as [Hj Hji].
    specialize (Hbefore j Hji). by rewrite (nth_lookup_Some _ _ _ _ Hj) in Hbefore. }
  rewrite (scan_rows_skip _ _ _ Hpre), length_take, Nat.min_l by lia.
  destruct (drop i bitbuffer) as [| r rest] eqn:Hd.
  - apply (f_equal length) in Hd. rewrite length_drop in Hd. simpl in Hd. lia.
  - assert (Hr : nth i bitbuffer [] = r).
    { apply nth_lookup_Some. rewrite <- (Nat.add_0_r i), <- lookup_drop, Hd. reflexivity. }
    rewrite Hr in *. simpl.
    destruct (Nat.ltb_spec 170 (length r)); [reflexivity |].
    destruct (Nat.ltb_spec 130 (length r)); [reflexivity | lia].
Qed.

(** C1, as the code has it: the scan stops at the first row longer than 130
    bits, whichever its variant.  That row is decoded as a retransmission
    (data start 65, 64-bit preamble) when it is longer than 170 bits and as a
    first frame (data start 25, 24-bit preamble) otherwise; a longer row
    further down the capture is not looked at. *)
Theorem scan_rows_first_candidate (bitbuffer : bitbuffer_t) (i : nat) :
  (num_rows bitbuffer <= 256)%nat ->
  (i < num_rows bitbuffer)%nat ->
  (130 < bits_per_row bitbuffer i)%nat ->
  (forall j, (j < i)%nat -> (bits_per_row bitbuffer j <= 130)%nat) ->
  decode_row (scan_rows bitbuffer 0) = i
  /\ ((170 < bits_per_row bitbuffer i)%nat ->
        is_retransmission (scan_rows bitbuffer 0) = 1
        /\ data_start (scan_rows bitbuffer 0) = 65%nat
        /\ preamble_pattern (scan_rows bitbuffer 0)
           = [0xf0; 0xf0; 0xf0; 0xf0; 0xf0; 0xf0; 0xf0; 0xff]
        /\ preamble_pattern_bit_length (scan_rows bitbuffer 0) = 64%nat)
  /\ ((bits_per_row bitbuffer i <= 170)%nat ->
        is_retransmission (scan_rows bitbuffer 0) = 0
        /\ data_start (scan_rows bitbuffer 0) = 25%nat
        /\ preamble_pattern (scan_rows bitbuffer 0) = [0xf0; 0xf0; 0xff]
        /\ preamble_pattern_bit_length (scan_rows bitbuffer 0) = 24%nat).
Proof.
  intros Hn Hi Hlen Hbefore.
  rewrite (scan_rows_at bitbuffer i Hi Hlen Hbefore).
  assert (Hmod : (i mod 256 = i)%nat) by (apply Nat.mod_small; lia).
  destruct (Nat.ltb_spec 170 (bits_per_row bitbuffer i));
    unfold retransmission_locals, first_frame_locals; rewrite Hmod;
    cbn [decode_row is_retransmission data_start preamble_pattern preamble_pattern_bit_length].
  - split; [reflexivity |]. split; [intros _; repeat split | lia].
  - split; [reflexivity |]. split; [lia | intros _; repeat split].
Qed.

Lemma scan_rows_first_candidate_witness :
  ((num_rows two_candidates <= 256)%nat
   /\ (0 < num_rows two_candidates)%nat
   /\ (130 < bits_per_row two_candidates 0)%nat
   /\ (bits_per_row two_candidates 0 <= 170)%nat)
  /\ decode_row (scan_rows two_candidates 0) = 0%nat
  /\ is_retransmission (scan_rows two_candidates 0) = 0
  /\ data_start (scan_rows two_candidates 0) = 25%nat.
Proof.
  assert (H256 : (num_rows two_candidates <= 256)%nat) by (vm_compute; lia).
  assert (H0 : (0 < num_rows two_candidates)%nat) by (vm_compute; lia).
  assert (H130 : (130 < bits_per_row two_candidates 0)%nat) by (vm_compute; lia).
  assert (H170 : (bits_per_row two_candidates 0 <= 170)%nat) by (vm_compute; lia).
  destruct (scan_rows_first_candidate two_candidates 0 H256 H0 H130 ltac:(lia))
    as (Hrow & _ & Hfirst).
  destruct (Hfirst H170) as (Hre & Hds & _).
  repeat split; assumption.
Defined.

(** C1 as stated fails: with a 137-bit first-frame row ahead of a 177-bit
    retransmission row, the stated rule picks row 1 as a retransmission,
    while the scan stops at row 0 and the callback reports its first frame. *)
Lemma longest_first_choice_counterexample :
  (170 < bits_per_row two_candidates 1)%nat
  /\ longest_first_choice two_candidates = retransmission_locals 1
  /\ scan_rows two_candidates 0 = first_frame_locals 0
  /\ scan_rows two_candidates 0 <> longest_first_choice two_candidates
  /\ somfy_rts_callback two_candidates
     = (DECODED, Some (somfy_rts_data (first_frame_locals 0) demo_message)).
Proof.
  split; [vm_compute; lia |].
  split; [vm_compute; reflexivity |].
  split; [vm_compute; reflexivity |].
  split; [vm_compute; discriminate |].
  vm_compute; reflexivity.
Qed.

(** C8: a capture in which no row is longer than 130 bits is rejected with
    DECODE_FAIL_SANITY and nothing is output. *)
Theorem no_candidate_row (bitbuffer : bitbuffer_t) :
  Forall (fun r : bitrow => (length r <= 130)%nat) bitbuffer ->
  somfy_rts_callback bitbuffer = (DECODE_FAIL_SANITY, None).
Proof.
  intros H. unfold somfy_rts_callback, somfy_rts_frame.
  by rewrite (scan_rows_none bitbuffer 0 H).
Qed.

Lemma no_candidate_row_witness :
  Forall (fun r : bitrow => (length r <= 130)%nat)
    [replicate 130 true; []; take 130 (frame_row (first_frame_locals 0) demo_message)]
  /\ somfy_rts_callback
       [replicate 130 true; []; take 130 (frame_row (first_frame_locals 0) demo_message)]
     = (DECODE_FAIL_SANITY, None).
Proof.
  assert (H : Forall (fun r : bitrow => (length r <= 130)%nat)
                [replicate 130 true; []; take 130 (frame_row (first_frame_locals 0) demo_message)]).
  { repeat constructor; vm_compute; lia. }
  split; [exact H | exact (no_candidate_row _ H)].
Defined.

(** ** The preamble test *)

Lemma scan_rows_cases (rows : list bitrow) (i0 : nat) :
  scan_rows rows i0 = scan_init
  \/ exists k, (k < length rows)%nat /\ (130 < length (nth k rows []))%nat
       /\ scan_rows rows i0
          = if (170 <? length (nth k rows []))%nat
            then retransmission_locals (i0 + k) else first_frame_locals (i0 + k).
Proof.
  revert i0. induction rows as [| r rows IH]; intros i0; simpl; [by left |].
  destruct (Nat.ltb_spec 170 (length r)) as [H170 | H170].
  - right. exists 0%nat. simpl.
    destruct (Nat.ltb_spec 170 (length r)); [| lia].
    rewrite Nat.add_0_r. repeat split; lia.
  - destruct (Nat.ltb_spec 130 (length r)) as [H130 | H130].
    + right. exists 0%nat. simpl.
      destruct (Nat.ltb_spec 170 (length r)); [lia |].
      rewrite Nat.add_0_r. repeat split; lia.
    + destruct (IH (S i0)) as [-> | (k & Hk & Hlen & ->)]; [by left |].
      right. exists (S k). simpl. replace (i0 + S k)%nat with (S i0 + k)%nat by lia.
      repeat split; [lia | assumption].
Qed.

Lemma selected_row_long (bitbuffer : bitbuffer_t) :
  (num_rows bitbuffer <= 256)%nat ->
  data_start (scan_rows bitbuffer 0) <> 0%nat ->
  (130 < length (selected_row bitbuffer))%nat
  /\ length (preamble_bits (scan_rows bitbuffer 0))
     = preamble_pattern_bit_length (scan_rows bitbuffer 0).
Proof.
  unfold num_rows, selected_row. intros Hn Hds.
  destruct (scan_rows_cases bitbuffer 0) as [H | (k & Hk & Hlen & H)]; rewrite H in *.
  - by destruct Hds.
  - assert (Hmod : (k mod 256 = k)%nat) by (apply Nat.mod_small; lia).
    destruct (170 <? _)%nat; unfold retransmission_locals, first_frame_locals;
      cbn [decode_row]; rewrite Nat.add_0_l, Hmod; (split; [assumption | reflexivity]).
Qed.

Lemma search_from_ge (r pat : bitrow) (pos n : nat) :
  search_from r pat pos n = length r \/ (pos <= search_from r pat pos n)%nat.
Proof.
  revert pos. induction n as [| n IH]; intros pos; simpl; [by left |].
  destruct (match_at r pos pat); [right; lia |].
  destruct (IH (S pos)); [by left | right; lia].
Qed.

Lemma bitbuffer_search_0 (b : bitbuffer_t) (row : nat) (pattern : list Z) (n : nat) :
  bitbuffer_search b row 0 pattern n = 0%nat ->
  length (nth row b []) = 0%nat
  \/ take n (bits_of_bytes pattern) `prefix_of` nth row b [].
Proof.
  unfold bitbuffer_search. set (r := nth row b []). set (pat := take n _).
  rewrite Nat.sub_0_r. destruct (length r) as [| m] eqn:Hlen; [by left |].
  simpl. destruct (match_at r 0 pat) eqn:Hm.
  - intros _. right. unfold match_at in Hm. apply bool_decide_eq_true in Hm.
    rewrite drop_0 in Hm. rewrite <- Hm. apply prefix_take.
  - intros H0. destruct (search_from_ge r pat 1 m) as [H | H]; lia.
Qed.

(** C9: when the preamble of the selected row's variant is not at bit offset
    0 of that row, the callback fails with DECODE_FAIL_SANITY and outputs
    nothing, wherever else in the row the pattern may occur. *)
Theorem preamble_anchored (bitbuffer : bitbuffer_t) :
  (num_rows bitbuffer <= 256)%nat ->
  data_start (scan_rows bitbuffer 0) <> 0%nat ->
  ~ preamble_bits (scan_rows bitbuffer 0) `prefix_of` selected_row bitbuffer ->
  somfy_rts_callback bitbuffer = (DECODE_FAIL_SANITY, None).
Proof.
  intros Hn Hds Hpre.
  destruct (selected_row_long bitbuffer Hn Hds) as [Hlong _].
  unfold somfy_rts_callback, somfy_rts_frame.
  destruct (Nat.eqb_spec (data_start (scan_rows bitbuffer 0)) 0); [contradiction |].
  destruct (Nat.eqb_spec
              (bitbuffer_search bitbuffer (decode_row (scan_rows bitbuffer 0)) 0
                 (preamble_pattern (scan_rows bitbuffer 0))
                 (preamble_pattern_bit_length (scan_rows bitbuffer 0))) 0) as [H0 | H0];
    [| reflexivity].
  apply bitbuffer_search_0 in H0 as [Hempty | Hfound].
  - unfold selected_row in Hlong. lia.
  - by destruct Hpre.
Qed.

Lemma preamble_anchored_witness :
  ((num_rows shifted_first <= 256)%nat
   /\ data_start (scan_rows shifted_first 0) <> 0%nat
   /\ ~ preamble_bits (scan_rows shifted_first 0) `prefix_of` selected_row shifted_first)
  /\ match_at (selected_row shifted_first) 1 (preamble_bits (scan_rows shifted_first 0)) = true
  /\ somfy_rts_callback shifted_first = (DECODE_FAIL_SANITY, None).
Proof.
  assert (Hn : (num_rows shifted_first <= 256)%nat) by (vm_compute; lia).
  assert (Hds : data_start (scan_rows shifted_first 0) <> 0%nat) by (vm_compute; lia).
  assert (Hpre : ~ preamble_bits (scan_rows shifted_first 0) `prefix_of` selected_row shifted_first).
  { intros [k Hk]. vm_compute in Hk. discriminate Hk. }
  split; [by repeat split |].
  split; [vm_compute; reflexivity |].
  exact (preamble_anchored shifted_first Hn Hds Hpre).
Defined.

(** ** The output record *)

Lemma somfy_rts_callback_success (bitbuffer : bitbuffer_t) :
  (somfy_rts_callback bitbuffer).1 = DECODED ->
  exists l d, somfy_rts_frame bitbuffer = inr (l, d)
              /\ length d = 7%nat /\ Forall is_byte d /\ checksum_fold d = 0
              /\ somfy_rts_callback bitbuffer = (DECODED, Some (somfy_rts_data l d)).
Proof.
  intros H.
  destruct (somfy_rts_frame bitbuffer) as [e | [l d]] eqn:Hf.
  - unfold somfy_rts_callback, somfy_rts_frame in *.
    destruct (data_start _ =? 0)%nat; [discriminate |].
    destruct (negb _); [discriminate |].
    destruct (bitbuffer_manchester_decode _ _ _ _ _) as [ipos dec].
    destruct (_ <? _)%nat; discriminate.
  - destruct (somfy_rts_frame_inr _ _ _ Hf) as (_ & Hlen & Hb).
    rewrite (somfy_rts_callback_frame _ _ _ Hf) in *.
    destruct (Z.eqb_spec (checksum_fold d) 0); [| discriminate].
    exists l, d. by repeat split.
Qed.

(** C2, as the code has it: every successful decode outputs a record whose
    keys are model, id, control, counter, address, retransmission, mic, in
    this order and no others; "Integrity" is the display label of the key
    mic. *)
Theorem output_schema (bitbuffer : bitbuffer_t) :
  (somfy_rts_callback bitbuffer).1 = DECODED ->
  exists rec, (somfy_rts_callback bitbuffer).2 = Some rec
    /\ data_keys rec
       = [ "model"; "id"; "control"; "counter"; "address"; "retransmission"; "mic" ]%string
    /\ map pretty_key rec
       = [ ""; "Id"; "Control"; "Counter"; "Address"; "Retransmission"; "Integrity" ]%string.
Proof.
  intros H. destruct (somfy_rts_callback_success _ H) as (l & d & _ & _ & _ & _ & ->).
  exists (somfy_rts_data l d). repeat split.
Qed.

Lemma output_schema_witness :
  (somfy_rts_callback demo_first).1 = DECODED
  /\ exists rec, (somfy_rts_callback demo_first).2 = Some rec
       /\ data_keys rec
          = [ "model"; "id"; "control"; "counter"; "address"; "retransmission"; "mic" ]%string
       /\ map pretty_key rec
          = [ ""; "Id"; "Control"; "Counter"; "Address"; "Retransmission"; "Integrity" ]%string.
Proof.
  assert (H : (somfy_rts_callback demo_first).1 = DECODED) by (vm_compute; reflexivity).
  split; [exact H | exact (output_schema demo_first H)].
Defined.

(** The column list [output_fields] names keys of the record only, and
    leaves out id and mic. *)
Lemma output_fields_keys (l : scan_locals) (d : list Z) :
  (forall f, In f output_fields -> In f (data_keys (somfy_rts_data l d)))
  /\ ~ In "id"%string output_fields /\ ~ In "mic"%string output_fields.
Proof.
  split; [| split].
  - intros f Hf. simpl in *. tauto.
  - simpl. intros H. repeat (destruct H as [H | H]; [discriminate H |]). contradiction.
  - simpl. intros H. repeat (destruct H as [H | H]; [discriminate H |]). contradiction.
Qed.

(** C2 as stated fails: the seventh key of a decoded record is mic, not
    integrity. *)
Lemma stated_keys_counterexample :
  exists rec, somfy_rts_callback demo_first = (DECODED, Some rec)
              /\ data_keys rec <> stated_keys
              /\ nth 6 (data_keys rec) ""%string = "mic"%string
              /\ data_get rec "integrity" = None.
Proof.
  eexists. split; [vm_compute; reflexivity |].
  split; [vm_compute; discriminate |].
  split; vm_compute; reflexivity.
Qed.

(** ** The fields *)

Lemma lor_shiftl_add (hi lo n : Z) :
  0 <= n -> 0 <= lo < 2 ^ n -> Z.lor (Z.shiftl hi n) lo = hi * 2 ^ n + lo.
Proof.
  intros Hn Hlo. rewrite <- Z.shiftl_mul_pow2 by assumption.
  symmetry. apply Z.add_nocarry_lor.
  apply Z.bits_inj'. intros k Hk. rewrite Z.land_spec, Z.bits_0.
  destruct (Z.lt_ge_cases k n).
  - by rewrite Z.shiftl_spec_low.
  - rewrite <- (Z.mod_small lo (2 ^ n)) by assumption.
    rewrite Z.mod_pow2_bits_high by lia. apply andb_false_r.
Qed.

Lemma address_int_le_bytes (b4 b5 b6 : Z) :
  is_byte b4 -> is_byte b5 -> is_byte b6 ->
  uint32 (Z.lor (Z.lor (Z.shiftl b6 16) (Z.shiftl b5 8)) b4) = b6 * 65536 + b5 * 256 + b4.
Proof.
  unfold is_byte, uint32. intros H4 H5 H6.
  rewrite <- Z.lor_assoc, (lor_shiftl_add b5 b4 8) by lia.
  rewrite (lor_shiftl_add b6 (b5 * 2 ^ 8 + b4) 16) by lia.
  rewrite Z.mod_small; lia.
Qed.

Lemma control_nibble (b1 : Z) :
  is_byte b1 -> Z.shiftr (Z.land b1 0xf0) 4 = b1 / 16 /\ 0 <= b1 / 16 < 16.
Proof.
  intros Hb.
  pose proof (forall_byte
    (fun b1 => (Z.shiftr (Z.land b1 0xf0) 4 =? b1 / 16) && (0 <=? b1 / 16) && (b1 / 16 <? 16))
    ltac:(vm_compute; reflexivity) b1 Hb) as H.
  cbv beta in H. lia.
Qed.

Lemma nth_is_byte (d : list Z) (i : nat) : Forall is_byte d -> is_byte (nth i d 0).
Proof.
  intros H. destruct (nth_in_or_default i d 0) as [Hin | ->].
  - by apply (proj1 (List.Forall_forall _ _) H).
  - unfold is_byte. lia.
Qed.

Lemma somfy_rts_data_fields (l : scan_locals) (d : list Z) :
  data_get (somfy_rts_data l d) "id"
  = Some (DATA_INT (uint32 (Z.lor (Z.lor (Z.shiftl (nth 6 d 0) 16) (Z.shiftl (nth 5 d 0) 8))
                             (nth 4 d 0))))
  /\ data_get (somfy_rts_data l d) "control"
     = Some (DATA_STRING (nth (Z.to_nat (Z.shiftr (Z.land (nth 1 d 0) 0xf0) 4)) control_str ""))
  /\ data_get (somfy_rts_data l d) "counter"
     = Some (DATA_INT (uint16 (Z.lor (nth 3 d 0) (Z.shiftl (nth 2 d 0) 8))))
  /\ data_get (somfy_rts_data l d) "address"
     = Some (DATA_STRING (hex02X (nth 4 d 0) +:+ hex02X (nth 5 d 0) +:+ hex02X (nth 6 d 0))).
Proof. repeat split. Qed.

Lemma nibble_cases (c : Z) :
  0 <= c < 16 -> In c (map Z.of_nat (seq 0 16)).
Proof. intros H. rewrite <- (Z2Nat.id c) by lia. apply in_map, in_seq. lia. Qed.

(** C6, as the code has it: the control label of a decoded frame is the
    entry of the 16-entry table [control_str] at the high nibble of
    descrambled byte 1.  The codes 0, 7, 11, 12, 13, 14 and also 15 have the
    placeholder label "? (code)"; the other nine codes have a command name. *)
Theorem control_label_table (bitbuffer : bitbuffer_t) :
  (somfy_rts_callback bitbuffer).1 = DECODED ->
  exists l d rec code,
    somfy_rts_frame bitbuffer = inr (l, d)
    /\ (somfy_rts_callback bitbuffer).2 = Some rec
    /\ code = nth 1 d 0 / 16 /\ 0 <= code < 16
    /\ length control_str = 16%nat
    /\ data_get rec "control" = Some (DATA_STRING (nth (Z.to_nat code) control_str ""))
    /\ (In code (stated_unknown_codes ++ [15]) ->
          nth (Z.to_nat code) control_str "" = unknown_label code)
    /\ (~ In code (stated_unknown_codes ++ [15]) ->
          In (code, nth (Z.to_nat code) control_str "") named_commands).
Proof.
  intros H. destruct (somfy_rts_callback_success _ H) as (l & d & Hf & Hlen & Hb & Hck & Hcb).
  destruct (control_nibble (nth 1 d 0) (nth_is_byte d 1 Hb)) as [Hctl Hrange].
  exists l, d, (somfy_rts_data l d), (nth 1 d 0 / 16).
  split; [exact Hf |]. split; [by rewrite Hcb |].
  split; [reflexivity |]. split; [exact Hrange |]. split; [reflexivity |].
  split.
  - destruct (somfy_rts_data_fields l d) as (_ & Hc & _). by rewrite Hc, Hctl.
  - generalize (nibble_cases _ Hrange). generalize (nth 1 d 0 / 16). intros code Hin.
    simpl in Hin.
    repeat (destruct Hin as [<- | Hin];
            [split; intros Hcode; simpl in Hcode;
             first [ reflexivity | exfalso; lia
                   | simpl; repeat (first [left; reflexivity | right]) ] |]).
    contradiction.
Qed.

Lemma control_label_table_witness :
  (somfy_rts_callback code15_first).1 = DECODED
  /\ exists l d rec code,
       somfy_rts_frame code15_first = inr (l, d)
       /\ (somfy_rts_callback code15_first).2 = Some rec
       /\ code = nth 1 d 0 / 16 /\ 0 <= code < 16
       /\ length control_str = 16%nat
       /\ data_get rec "control" = Some (DATA_STRING (nth (Z.to_nat code) control_str ""))
       /\ (In code (stated_unknown_codes ++ [15]) ->
             nth (Z.to_nat code) control_str "" = unknown_label code)
       /\ (~ In code (stated_unknown_codes ++ [15]) ->
             In (code, nth (Z.to_nat code) control_str "") named_commands).
Proof.
  assert (H : (somfy_rts_callback code15_first).1 = DECODED) by (vm_compute; reflexivity).
  split; [exact H | exact (control_label_table code15_first H)].
Defined.

(** C6 as stated fails: code 15 is not among 0, 7, 11, 12, 13, 14, yet a
    frame with control code 15 is labelled with the placeholder "? (15)",
    not with a command name. *)
Lemma code15_counterexample :
  ~ In 15 stated_unknown_codes
  /\ nth 15 control_str ""%string = unknown_label 15
  /\ (forall name, ~ In (15, name) named_commands)
  /\ exists rec, somfy_rts_callback code15_first = (DECODED, Some rec)
                 /\ data_get rec "control" = Some (DATA_STRING "? (15)").
Proof.
  split; [simpl; lia |]. split; [vm_compute; reflexivity |].
  split.
  - intros name Hin. simpl in Hin.
    repeat (destruct Hin as [Hin | Hin]; [discriminate Hin |]). contradiction.
  - eexists. split; vm_compute; reflexivity.
Qed.

(** C7: the identifier of a decoded frame is byte6<<16 | byte5<<8 | byte4
    and its address string is the hexadecimal of bytes 4, 5, 6 in this
    order; a frame whose descrambled bytes are 0xA1, 0x2c with c the
    checksum nibble that makes the fold 0, 0x00, 0x05, 0x01, 0x02, 0x03
    decodes to control "Up (2)", counter 5, address "010203" and id
    0x030201. *)
Theorem field_extraction (bitbuffer : bitbuffer_t) (l : scan_locals) (d : list Z) :
  somfy_rts_frame bitbuffer = inr (l, d) ->
  checksum_fold d = 0 ->
  exists rec, somfy_rts_callback bitbuffer = (DECODED, Some rec)
    /\ data_get rec "id"
       = Some (DATA_INT (nth 6 d 0 * 65536 + nth 5 d 0 * 256 + nth 4 d 0))
    /\ data_get rec "address"
       = Some (DATA_STRING (hex02X (nth 4 d 0) +:+ hex02X (nth 5 d 0) +:+ hex02X (nth 6 d 0)))
    /\ (forall c, 0 <= c < 16 ->
          d = [0xA1; 0x20 + c; 0x00; 0x05; 0x01; 0x02; 0x03] ->
          data_get rec "control" = Some (DATA_STRING "Up (2)")
          /\ data_get rec "counter" = Some (DATA_INT 5)
          /\ data_get rec "address" = Some (DATA_STRING "010203")
          /\ data_get rec "id" = Some (DATA_INT 0x030201)).
Proof.
  intros Hf Hck. destruct (somfy_rts_frame_inr _ _ _ Hf) as (_ & Hlen & Hb).
  exists (somfy_rts_data l d). split.
  - rewrite (somfy_rts_callback_frame _ _ _ Hf), Hck. reflexivity.
  - destruct (somfy_rts_data_fields l d) as (Hid & _ & _ & Haddr).
    split; [| split; [exact Haddr |]].
    + rewrite Hid, address_int_le_bytes by (by apply nth_is_byte). reflexivity.
    + intros c Hc ->. generalize (nibble_cases _ Hc). intros Hin. simpl in Hin.
      repeat (destruct Hin as [<- | Hin];
              [first [discriminate Hck | repeat split] |]).
      contradiction.
Qed.

Lemma field_extraction_witness :
  (somfy_rts_frame demo_first = inr (first_frame_locals 0, demo_message)
   /\ checksum_fold demo_message = 0)
  /\ exists rec, somfy_rts_callback demo_first = (DECODED, Some rec)
       /\ data_get rec "control" = Some (DATA_STRING "Up (2)")
       /\ data_get rec "counter" = Some (DATA_INT 5)
       /\ data_get rec "address" = Some (DATA_STRING "010203")
       /\ data_get rec "id" = Some (DATA_INT 0x030201).
Proof.
  assert (Hf : somfy_rts_frame demo_first = inr (first_frame_locals 0, demo_message))
    by (vm_compute; reflexivity).
  assert (Hck : checksum_fold demo_message = 0) by (vm_compute; reflexivity).
  split; [by split |].
  destruct (field_extraction demo_first _ _ Hf Hck) as (rec & Hcb & _ & _ & Hscen).
  exists rec. split; [exact Hcb |].
  apply (Hscen 12); [lia | reflexivity].
Defined.

(** ** The Manchester decode *)

(** The pair loop never stops for want of turns: a turn consumes two raw
    bits, so with half of [len - ipos] turns it has reached its own exit,
    and more turns change nothing. *)
Lemma manchester_loop_fuel (n k : nat) (bits : bitrow) (ipos len : nat) (out : bitrow) :
  (len - ipos <= 2 * n)%nat ->
  manchester_loop (n + k) bits ipos len out = manchester_loop n bits ipos len out.
Proof.
  revert ipos out. induction n as [| n IH]; intros ipos out Hn.
  - destruct k as [| k]; [reflexivity |]. simpl.
    destruct (Nat.ltb_spec ipos len); [lia | reflexivity].
  - simpl. destruct (Nat.ltb_spec ipos len); [| reflexivity].
    destruct (eqb _ _); [reflexivity |]. apply IH. lia.
Qed.

Lemma manchester_loop_S (n : nat) (bits : bitrow) (ipos len : nat) (out : bitrow) :
  manchester_loop (S n) bits ipos len out
  = if (ipos <? len)%nat then
      if eqb (bit bits ipos) (bit bits (ipos + 1)) then ((ipos + 2)%nat, out)
      else manchester_loop n bits (ipos + 2) len (out ++ [bit bits (ipos + 1)])
    else (ipos, out).
Proof. reflexivity. Qed.

Lemma manchester_encode_cons (b : bool) (bits : bitrow) :
  manchester_encode (b :: bits) = negb b :: b :: manchester_encode bits.
Proof. by destruct b. Qed.

(** A clean pair yields its second raw bit: low-high is 1, high-low is 0;
    after an encoded payload the loop has read every pair and returned the
    payload. *)
Lemma manchester_loop_encode (bits pre out : bitrow) :
  manchester_loop (length bits) (pre ++ manchester_encode bits) (length pre)
    (length pre + 2 * length bits) out
  = ((length pre + 2 * length bits)%nat, out ++ bits).
Proof.
  revert pre out. induction bits as [| b bits IH]; intros pre out.
  - simpl. rewrite app_nil_r. f_equal. lia.
  - rewrite manchester_encode_cons. cbn [length]. rewrite manchester_loop_S.
    destruct (Nat.ltb_spec (length pre) (length pre + 2 * S (length bits))); [| lia].
    assert (Hb1 : bit (pre ++ negb b :: b :: manchester_encode bits) (length pre) = negb b).
    { unfold bit. rewrite app_nth2 by lia. by rewrite Nat.sub_diag. }
    assert (Hb2 : bit (pre ++ negb b :: b :: manchester_encode bits) (length pre + 1) = b).
    { unfold bit. rewrite app_nth2 by lia.
      by replace (length pre + 1 - length pre)%nat with 1%nat by lia. }
    rewrite Hb1, Hb2. replace (eqb (negb b) b) with false by (by destruct b).
    specialize (IH (pre ++ [negb b; b]) (out ++ [b])).
    rewrite <- !app_assoc, length_app in IH. simpl in IH.
    replace (length pre + 2 * S (length bits))%nat
      with (length pre + 2 + (length bits + (length bits + 0)))%nat by lia.
    exact IH.
Qed.

(** ** Well-formed frames *)

Lemma bits_of_bytes_length (bs : list Z) : length (bits_of_bytes bs) = (8 * length bs)%nat.
Proof.
  unfold bits_of_bytes. induction bs as [| b bs IH]; [reflexivity |].
  cbn [map concat length]. rewrite length_app, IH. simpl. lia.
Qed.

Lemma manchester_encode_length (bits : bitrow) :
  length (manchester_encode bits) = (2 * length bits)%nat.
Proof.
  induction bits as [| b bits IH]; [reflexivity |].
  rewrite manchester_encode_cons. cbn [length]. rewrite IH. lia.
Qed.

Lemma scramble_from_spec (prev : Z) (bs : list Z) :
  is_byte prev -> Forall is_byte bs ->
  length (scramble_from prev bs) = length bs /\ Forall is_byte (scramble_from prev bs).
Proof.
  intros Hp Hb. revert prev Hp. induction Hb as [| b bs Hb _ IH]; intros prev Hp; simpl.
  - split; [reflexivity | constructor].
  - destruct (IH (Z.lxor b prev) (lxor_byte _ _ Hb Hp)) as [Hlen Hbytes].
    split; [by rewrite Hlen |]. constructor; [by apply lxor_byte | assumption].
Qed.

Lemma scramble_spec (m : list Z) :
  Forall is_byte m -> length (scramble m) = length m /\ Forall is_byte (scramble m).
Proof.
  intros Hb. destruct Hb as [| seed m Hs Hb]; simpl; [split; [reflexivity | constructor] |].
  destruct (scramble_from_spec seed m Hs Hb) as [Hlen Hbytes].
  split; [by rewrite Hlen | by constructor].
Qed.

Lemma bit_app_r (pre r : bitrow) (n : nat) : bit (pre ++ r) (length pre + n) = bit r n.
Proof. unfold bit. apply app_nth2_plus. Qed.

Lemma byte_at_app (pre r : bitrow) (p : nat) :
  byte_at (pre ++ r) (length pre + p) = byte_at r p.
Proof.
  unfold byte_at. cbn [seq foldl]. by rewrite <- !Nat.add_assoc, !bit_app_r.
Qed.

Lemma byte_at_bits_of_byte (b : Z) (rest : bitrow) :
  is_byte b -> byte_at (bits_of_byte b ++ rest) 0 = b.
Proof.
  intros Hb. change (byte_at (bits_of_byte b ++ rest) 0) with (byte_at (bits_of_byte b) 0).
  pose proof (forall_byte (fun b => byte_at (bits_of_byte b) 0 =? b)
                ltac:(vm_compute; reflexivity) b Hb) as H.
  cbv beta in H. lia.
Qed.

Lemma extract_bits_of_bytes (bs : list Z) (pre rest : bitrow) :
  Forall is_byte bs ->
  map (fun j => byte_at (pre ++ bits_of_bytes bs ++ rest) (length pre + 8 * j))
      (seq 0 (length bs)) = bs.
Proof.
  intros Hb. revert pre. induction Hb as [| b bs Hb _ IH]; intros pre; [reflexivity |].
  cbn [length seq map]. f_equal.
  - rewrite byte_at_app. unfold bits_of_bytes. cbn [map concat].
    rewrite <- app_assoc. by apply byte_at_bits_of_byte.
  - rewrite <- seq_shift, map_map.
    specialize (IH (pre ++ bits_of_byte b)).
    rewrite <- IH at 2. apply map_ext. intros j.
    unfold bits_of_bytes. cbn [map concat]. rewrite <- !app_assoc. f_equal.
    rewrite length_app. change (length (bits_of_byte b)) with 8%nat. lia.
Qed.

Lemma extract_bytes_bits_of_bytes (s : list Z) :
  length s = 7%nat -> Forall is_byte s ->
  bitbuffer_extract_bytes (bits_of_bytes s) 0 56 = s.
Proof.
  intros Hlen Hb. unfold bitbuffer_extract_bytes.
  pose proof (extract_bits_of_bytes s [] [] Hb) as H.
  rewrite Hlen, app_nil_r in H. exact H.
Qed.

Lemma frame_row_length (l : scan_locals) (m : list Z) :
  Forall is_byte m ->
  length (frame_row l m) = (length (preamble_bits l) + 1 + 16 * length m)%nat.
Proof.
  intros Hb. unfold frame_row. fold (preamble_bits l).
  rewrite !length_app, manchester_encode_length, bits_of_bytes_length.
  destruct (scramble_spec m Hb) as [-> _]. simpl. lia.
Qed.

Lemma manchester_decode_frame_row (l : scan_locals) (m : list Z) :
  length m = 7%nat -> Forall is_byte m ->
  data_start l = (length (preamble_bits l) + 1)%nat ->
  bitbuffer_manchester_decode [frame_row l m] 0 (data_start l) [] 56
  = ((data_start l + 112)%nat, bits_of_bytes (scramble m)).
Proof.
  intros Hlen Hb Hds. destruct (scramble_spec m Hb) as [Hslen _].
  unfold bitbuffer_manchester_decode. cbn [nth].
  rewrite (frame_row_length l m Hb), Hlen, Hds.
  replace ((0 <? 56)%nat && (length (preamble_bits l) + 1 + 56 * 2
                             <? length (preamble_bits l) + 1 + 16 * 7)%nat)
    with false by (symmetry; apply andb_false_iff; right; apply Nat.ltb_ge; lia).
  replace (length (preamble_bits l) + 1 + 16 * 7 - (length (preamble_bits l) + 1))%nat
    with (56 + 56)%nat by lia.
  rewrite manchester_loop_fuel by lia.
  unfold frame_row. fold (preamble_bits l). rewrite app_assoc.
  pose proof (manchester_loop_encode (bits_of_bytes (scramble m)) (preamble_bits l ++ [false]) [])
    as H.
  rewrite bits_of_bytes_length, Hslen, Hlen, length_app in H. simpl length in H.
  simpl Nat.mul in *. rewrite H. reflexivity.
Qed.

Lemma variant_facts (l : scan_locals) :
  l = first_frame_locals 0 \/ l = retransmission_locals 0 ->
  data_start l = (length (preamble_bits l) + 1)%nat
  /\ decode_row l = 0%nat
  /\ (forall row : bitrow, length row = (data_start l + 112)%nat -> scan_rows [row] 0 = l).
Proof.
  intros [-> | ->]; (split; [reflexivity |]); (split; [reflexivity |]);
    intros row Hrow; cbn [scan_rows]; rewrite Hrow; reflexivity.
Qed.

Lemma bitbuffer_search_preamble (l : scan_locals) (y : bool) (rest : bitrow) :
  bitbuffer_search [preamble_bits l ++ y :: rest] 0 0
    (preamble_pattern l) (preamble_pattern_bit_length l) = 0%nat.
Proof.
  unfold bitbuffer_search. cbn [nth]. fold (preamble_bits l). rewrite Nat.sub_0_r.
  rewrite length_app. cbn [length]. rewrite Nat.add_succ_r. cbn [search_from].
  unfold match_at. rewrite drop_0, take_app_length. by rewrite bool_decide_eq_true_2.
Qed.

(** Every 7-byte message, sent as a first frame or as a retransmission,
    reaches the checksum stage as it was before scrambling. *)
Lemma somfy_rts_frame_frame_row (l : scan_locals) (m : list Z) :
  l = first_frame_locals 0 \/ l = retransmission_locals 0 ->
  length m = 7%nat -> Forall is_byte m ->
  somfy_rts_frame [frame_row l m] = inr (l, m).
Proof.
  intros Hl Hlen Hb.
  destruct (variant_facts l Hl) as (Hds & Hrow & Hscan).
  destruct (scramble_spec m Hb) as [Hslen Hsb].
  assert (Hrowlen : length (frame_row l m) = (data_start l + 112)%nat).
  { rewrite (frame_row_length l m Hb), Hlen. lia. }
  unfold somfy_rts_frame. rewrite (Hscan _ Hrowlen), Hrow.
  destruct (Nat.eqb_spec (data_start l) 0) as [H0 | _]; [lia |].
  unfold frame_row at 1. fold (preamble_bits l). cbn [app].
  rewrite bitbuffer_search_preamble. cbn [Nat.eqb negb].
  rewrite (manchester_decode_frame_row l m Hlen Hb Hds).
  destruct (Nat.ltb_spec (data_start l + 112 - data_start l) 56); [lia |].
  rewrite extract_bytes_bits_of_bytes by (assumption || lia).
  clear -Hlen. list7 m Hlen. by rewrite descramble_scramble_7.
Qed.

Example demo_retransmission_decodes :
  somfy_rts_callback demo_retransmission
  = (DECODED, Some (somfy_rts_data (retransmission_locals 1) demo_message))
  /\ data_get (somfy_rts_data (retransmission_locals 1) demo_message) "retransmission"
     = Some (DATA_STRING "TRUE").
Proof. split; vm_compute; reflexivity. Qed.

(** A well-formed frame is decoded exactly when its checksum folds to 0. *)
Lemma somfy_rts_callback_frame_row (l : scan_locals) (m : list Z) :
  l = first_frame_locals 0 \/ l = retransmission_locals 0 ->
  length m = 7%nat -> Forall is_byte m ->
  somfy_rts_callback [frame_row l m]
  = if checksum_fold m =? 0 then (DECODED, Some (somfy_rts_data l m))
    else (DECODE_FAIL_MIC, None).
Proof.
  intros Hl Hlen Hb. apply somfy_rts_callback_frame. by apply somfy_rts_frame_frame_row.
Qed.

(** ** A damaged pair in the payload *)

Lemma manchester_encode_app (a b : bitrow) :
  manchester_encode (a ++ b) = manchester_encode a ++ manchester_encode b.
Proof. unfold manchester_encode. by rewrite map_app, concat_app. Qed.

Lemma flip_bit_app (pre rest : bitrow) (y : bool) :
  flip_bit (pre ++ y :: rest) (length pre) = pre ++ negb y :: rest.
Proof.
  unfold flip_bit, bit. rewrite nth_middle, insert_app_r_alt by lia.
  by rewrite Nat.sub_diag.
Qed.

(** Flipping one raw bit of an encoded payload leaves the pairs before it
    clean and turns its own pair into two equal bits. *)
Lemma flip_bit_manchester_encode (P B : bitrow) (j : nat) :
  (j < 2 * length B)%nat ->
  exists (x : bool) (B2 : bitrow),
    flip_bit (P ++ manchester_encode B) (length P + j)
    = P ++ manchester_encode (take (j / 2) B) ++ x :: x :: manchester_encode B2.
Proof.
  intros Hj.
  pose proof (Nat.div_mod_eq j 2) as Hdm.
  pose proof (Nat.mod_upper_bound j 2 ltac:(lia)) as Hr.
  set (k := (j / 2)%nat) in *.
  assert (Hk : (k < length B)%nat) by lia.
  destruct (lookup_lt_is_Some_2 B k Hk) as [b Hb].
  replace (manchester_encode B)
    with (manchester_encode (take k B ++ b :: drop (S k) B))
    by (by rewrite (take_drop_middle B k b Hb)).
  rewrite manchester_encode_app, manchester_encode_cons.
  assert (Hlen : length (manchester_encode (take k B)) = (2 * k)%nat).
  { rewrite manchester_encode_length, length_take. lia. }
  destruct (j mod 2)%nat as [| [| r]] eqn:Hmod; [| | lia].
  - exists b, (drop (S k) B).
    replace (length P + j)%nat with (length (P ++ manchester_encode (take k B)))
      by (rewrite length_app, Hlen; lia).
    rewrite app_assoc, flip_bit_app, negb_involutive. by rewrite <- app_assoc.
  - exists (negb b), (drop (S k) B).
    replace (length P + j)%nat
      with (length ((P ++ manchester_encode (take k B)) ++ [negb b]))
      by (rewrite !length_app, Hlen; simpl; lia).
    replace (P ++ manchester_encode (take k B) ++ negb b :: b :: manchester_encode (drop (S k) B))
      with (((P ++ manchester_encode (take k B)) ++ [negb b])
              ++ b :: manchester_encode (drop (S k) B))
      by (by rewrite <- !app_assoc).
    rewrite flip_bit_app. by rewrite <- !app_assoc.
Qed.

(** The loop returns the clean pairs it met and stops two raw bits past the
    start of the damaged pair. *)
Lemma manchester_loop_defect (B1 pre rest out : bitrow) (x : bool) (n len : nat) :
  (length pre + 2 * length B1 < len)%nat ->
  manchester_loop (length B1 + S n) (pre ++ manchester_encode B1 ++ x :: x :: rest)
    (length pre) len out
  = ((length pre + 2 * length B1 + 2)%nat, out ++ B1).
Proof.
  revert pre out. induction B1 as [| b B1 IH]; intros pre out Hlen.
  - cbn [length Nat.add manchester_encode map concat app]. rewrite manchester_loop_S.
    destruct (Nat.ltb_spec (length pre) len); [| simpl in Hlen; lia].
    assert (Hb1 : bit (pre ++ x :: x :: rest) (length pre) = x).
    { unfold bit. by rewrite nth_middle. }
    assert (Hb2 : bit (pre ++ x :: x :: rest) (length pre + 1) = x).
    { unfold bit. rewrite app_nth2 by lia.
      by replace (length pre + 1 - length pre)%nat with 1%nat by lia. }
    rewrite Hb1, Hb2, eqb_reflx, app_nil_r. f_equal. lia.
  - rewrite manchester_encode_cons. cbn [length Nat.add app]. rewrite manchester_loop_S.
    cbn [length] in Hlen.
    destruct (Nat.ltb_spec (length pre) len); [| lia].
    assert (Hb1 : bit (pre ++ negb b :: b :: manchester_encode B1 ++ x :: x :: rest)
                    (length pre) = negb b).
    { unfold bit. by rewrite nth_middle. }
    assert (Hb2 : bit (pre ++ negb b :: b :: manchester_encode B1 ++ x :: x :: rest)
                    (length pre + 1) = b).
    { unfold bit. rewrite app_nth2 by lia.
      by replace (length pre + 1 - length pre)%nat with 1%nat by lia. }
    rewrite Hb1, Hb2. replace (eqb (negb b) b) with false by (by destruct b).
    specialize (IH (pre ++ [negb b; b]) (out ++ [b])).
    rewrite <- !app_assoc, length_app in IH. simpl in IH.
    rewrite IH by lia. f_equal. lia.
Qed.

(** What the first stages make of a frame with one raw payload bit flipped:
    the frame is dropped only when the damaged pair is among the first 27. *)
Lemma somfy_rts_frame_damaged (l : scan_locals) (m : list Z) (j : nat) :
  l = first_frame_locals 0 \/ l = retransmission_locals 0 ->
  length m = 7%nat -> Forall is_byte m -> (j < 112)%nat ->
  somfy_rts_frame [flip_bit (frame_row l m) (data_start l + j)]
  = if (2 * (j / 2) + 2 <? 56)%nat then inl DECODE_FAIL_MIC
    else inr (l, descramble
                   (bitbuffer_extract_bytes (take (j / 2) (bits_of_bytes (scramble m))) 0 56)).
Proof.
  intros Hl Hlen Hb Hj.
  destruct (variant_facts l Hl) as (Hds & Hrow & Hscan).
  destruct (scramble_spec m Hb) as [Hslen _].
  set (B := bits_of_bytes (scramble m)).
  assert (HB : length B = 56%nat) by (unfold B; rewrite bits_of_bytes_length, Hslen, Hlen; lia).
  pose proof (Nat.div_mod_eq j 2) as Hdm.
  pose proof (Nat.mod_upper_bound j 2 ltac:(lia)) as Hr.
  set (k := (j / 2)%nat) in *.
  assert (Hshape : exists (x : bool) (B2 : bitrow),
             flip_bit (frame_row l m) (data_start l + j)
             = preamble_bits l ++ false :: manchester_encode (take k B) ++ x :: x :: manchester_encode B2).
  { destruct (flip_bit_manchester_encode (preamble_bits l ++ [false]) B j ltac:(lia))
      as (x & B2 & Hflip).
    exists x, B2. rewrite length_app in Hflip. cbn [length] in Hflip. rewrite <- Hds in Hflip.
    unfold frame_row. fold (preamble_bits l). fold B.
    rewrite <- !app_assoc in Hflip. exact Hflip. }
  destruct Hshape as (x & B2 & Hshape).
  assert (Hrowlen : length (flip_bit (frame_row l m) (data_start l + j))
                    = (data_start l + 112)%nat).
  { unfold flip_bit. rewrite length_insert, (frame_row_length l m Hb), Hlen. lia. }
  unfold somfy_rts_frame. rewrite (Hscan _ Hrowlen), Hrow.
  destruct (Nat.eqb_spec (data_start l) 0) as [H0 | _]; [lia |].
  assert (Hdec : bitbuffer_manchester_decode [flip_bit (frame_row l m) (data_start l + j)]
                   0 (data_start l) [] 56
                 = ((data_start l + 2 * k + 2)%nat, take k B)).
  { unfold bitbuffer_manchester_decode. cbn [nth]. rewrite Hrowlen.
    replace ((0 <? 56)%nat && (data_start l + 56 * 2 <? data_start l + 112)%nat)
      with false by (symmetry; apply andb_false_iff; right; apply Nat.ltb_ge; lia).
    replace (data_start l + 112 - data_start l)%nat with (k + S (111 - k))%nat by lia.
    rewrite Hshape.
    pose proof (manchester_loop_defect (take k B) (preamble_bits l ++ [false]) (manchester_encode B2)
                  [] x (111 - k) (data_start l + 112)) as H.
    rewrite length_app, length_take, <- !app_assoc in H. cbn [length app] in H.
    rewrite <- Hds, Nat.min_l in H by lia.
    apply H. lia. }
  rewrite Hshape at 1. rewrite bitbuffer_search_preamble. cbn [Nat.eqb negb].
  rewrite Hdec.
  replace (data_start l + 2 * k + 2 - data_start l)%nat with (2 * k + 2)%nat by lia.
  reflexivity.
Qed.

Lemma byte_at_overflow (r : bitrow) (pos : nat) :
  (length r <= pos)%nat -> byte_at r pos = 0.
Proof.
  intros Hlen. unfold byte_at, bit. cbn [seq foldl].
  by rewrite !nth_overflow by lia.
Qed.

(** A flip among the first 54 raw payload bits is caught. *)
Lemma early_defect_rejected (l : scan_locals) (m : list Z) (j : nat) :
  l = first_frame_locals 0 \/ l = retransmission_locals 0 ->
  length m = 7%nat -> Forall is_byte m -> (j < 54)%nat ->
  somfy_rts_callback [flip_bit (frame_row l m) (data_start l + j)] = (DECODE_FAIL_MIC, None).
Proof.
  intros Hl Hlen Hb Hj. unfold somfy_rts_callback.
  rewrite (somfy_rts_frame_damaged l m j Hl Hlen Hb) by lia.
  pose proof (Nat.div_mod_eq j 2). pose proof (Nat.mod_upper_bound j 2 ltac:(lia)).
  destruct (Nat.ltb_spec (2 * (j / 2) + 2) 56); [reflexivity | lia].
Qed.

(** A flip of any of the raw payload bits 54 to 97 is not: the frame is
    reported, whatever its bytes were, from the bits decoded before the
    damaged pair. *)
Lemma late_defect_accepted (l : scan_locals) (m : list Z) (j : nat) :
  l = first_frame_locals 0 \/ l = retransmission_locals 0 ->
  length m = 7%nat -> Forall is_byte m -> (54 <= j < 98)%nat ->
  exists d, somfy_rts_callback [flip_bit (frame_row l m) (data_start l + j)]
            = (DECODED, Some (somfy_rts_data l d)).
Proof.
  intros Hl Hlen Hb Hj. unfold somfy_rts_callback.
  rewrite (somfy_rts_frame_damaged l m j Hl Hlen Hb) by lia.
  pose proof (Nat.div_mod_eq j 2). pose proof (Nat.mod_upper_bound j 2 ltac:(lia)).
  destruct (Nat.ltb_spec (2 * (j / 2) + 2) 56); [lia |].
  set (dec := take (j / 2) (bits_of_bytes (scramble m))).
  assert (Hdec : (length dec <= 48)%nat) by (unfold dec; rewrite length_take; lia).
  destruct (extract_bytes_56 dec) as [Hrlen _].
  assert (H6 : nth 6 (bitbuffer_extract_bytes dec 0 56) 0 = 0).
  { unfold bitbuffer_extract_bytes. cbn [Nat.div Nat.divmod fst seq map nth].
    apply byte_at_overflow. lia. }
  destruct (bitbuffer_extract_bytes dec 0 56) as [| r0 [| r1 [| r2 [| r3 [| r4 [| r5 [| r6 [| ? ?]]]]]]]];
    try discriminate Hrlen.
  cbn [nth] in H6. subst r6.
  exists (descramble [r0; r1; r2; r3; r4; r5; 0]).
  unfold somfy_rts_output. rewrite xor_bytes_descramble_7. reflexivity.
Qed.

(** ** Corrupted payloads *)

Lemma xor_all_insert (d : list Z) (i : nat) (delta : Z) :
  (i < length d)%nat ->
  xor_all (<[ i := Z.lxor (nth i d 0) delta ]> d) = Z.lxor (xor_all d) delta.
Proof.
  revert i. induction d as [| x d IH]; intros i Hi; simpl in Hi; [lia |].
  destruct i as [| i]; simpl.
  - xor_bits.
  - rewrite IH by lia. by rewrite Z.lxor_assoc.
Qed.

Lemma nibble_fold_single_nibble (delta : Z) :
  is_byte delta -> delta <> 0 -> delta < 16 \/ delta mod 16 = 0 -> nibble_fold delta <> 0.
Proof.
  intros Hb Hne Hnib.
  pose proof (forall_byte
    (fun delta => implb (negb (delta =? 0) && ((delta <? 16) || (delta mod 16 =? 0)))
                    (negb (nibble_fold delta =? 0)))
    ltac:(vm_compute; reflexivity) delta Hb) as H.
  cbv beta in H.
  destruct (nibble_fold delta =? 0) eqn:E; [| lia].
  destruct (delta =? 0) eqn:E0; [lia |].
  destruct (delta <? 16) eqn:E1; [discriminate H |].
  destruct (delta mod 16 =? 0) eqn:E2; [discriminate H | lia].
Qed.

(** The checksum does detect every corruption confined to one nibble of the
    descrambled bytes. *)
Lemma single_nibble_detected (d : list Z) (i : nat) (delta : Z) :
  length d = 7%nat -> Forall is_byte d -> checksum_fold d = 0 ->
  (i < 7)%nat -> is_byte delta -> delta <> 0 -> delta < 16 \/ delta mod 16 = 0 ->
  checksum_fold (<[ i := Z.lxor (nth i d 0) delta ]> d) <> 0.
Proof.
  intros Hlen Hb H0 Hi Hd Hne Hnib. unfold checksum_fold in *.
  rewrite xor_all_insert by lia.
  rewrite nibble_fold_lxor by (assumption || by apply xor_all_byte).
  rewrite H0, Z.lxor_0_l. by apply nibble_fold_single_nibble.
Qed.

(** C5 fails on the code: the callback compares the raw position the
    Manchester decode reached with 56, so a defect after the first 27 pairs
    is let through; the missing bits read as 0, byte 6 is 0 and the checksum
    passes.  Here the flip of raw payload bit 60 stops the decode after 30
    logical bits, and the frame is still reported, with another address. *)
Theorem corrupted_payload_accepted :
  somfy_rts_callback demo_first
  = (DECODED, Some (somfy_rts_data (first_frame_locals 0) demo_message))
  /\ (bitbuffer_manchester_decode corrupted_first 0 25 [] 56).1 = 87%nat
  /\ length (bitbuffer_manchester_decode corrupted_first 0 25 [] 56).2 = 30%nat
  /\ somfy_rts_callback corrupted_first
     = (DECODED, Some (somfy_rts_data (first_frame_locals 0)
                         [0xA1; 0x2C; 0x00; 0x05; 0x88; 0x00; 0x00]))
  /\ data_get (somfy_rts_data (first_frame_locals 0) [0xA1; 0x2C; 0x00; 0x05; 0x88; 0x00; 0x00])
       "address" = Some (DATA_STRING "880000").
Proof. repeat split; vm_compute; reflexivity. Qed.

(** * Further properties of the callback *)

(** ** Failures output nothing *)

(** X1: the callback hands a record to the output exactly when it returns
    success; a capture it rejects, at whatever stage, leaves no record. *)
Theorem record_iff_decoded (bitbuffer : bitbuffer_t) :
  ((somfy_rts_callback bitbuffer).1 = DECODED
   <-> exists rec, (somfy_rts_callback bitbuffer).2 = Some rec)
  /\ ((somfy_rts_callback bitbuffer).1 <> DECODED
      <-> (somfy_rts_callback bitbuffer).2 = None).
Proof.
  unfold somfy_rts_callback.
  destruct (somfy_rts_frame bitbuffer) as [e | [l d]] eqn:Hf.
  - assert (He : e <> DECODED).
    { unfold somfy_rts_frame in Hf.
      destruct (data_start _ =? 0)%nat; [by injection Hf as <- |].
      destruct (negb _); [by injection Hf as <- |].
      destruct (bitbuffer_manchester_decode _ _ _ _ _) as [ipos dec].
      destruct (_ <? _)%nat; [by injection Hf as <- | discriminate]. }
    cbn [fst snd]. split; split; try done.
    intros [rec Hrec]. discriminate.
  - unfold somfy_rts_output. destruct (negb _); cbn [fst snd].
    + split; split; try done. intros [rec Hrec]. discriminate.
    + split; split; try done; eauto.
Qed.

(** ** Only the first candidate row counts *)

Lemma search_row_only (b1 b2 : bitbuffer_t) (r1 r2 : nat) (pattern : list Z) (n : nat) :
  nth r1 b1 [] = nth r2 b2 [] ->
  bitbuffer_search b1 r1 0 pattern n = bitbuffer_search b2 r2 0 pattern n.
Proof. unfold bitbuffer_search. by intros ->. Qed.

Lemma manchester_row_only (b1 b2 : bitbuffer_t) (r1 r2 start max : nat) (out : bitrow) :
  nth r1 b1 [] = nth r2 b2 [] ->
  bitbuffer_manchester_decode b1 r1 start out max
  = bitbuffer_manchester_decode b2 r2 start out max.
Proof. unfold bitbuffer_manchester_decode. by intros ->. Qed.

(** X2: the rows ahead of the first row longer than 130 bits and all the
    rows after it have no part in the result; the capture is decoded, or
    rejected, as that row alone would be.  A frame further down is not tried
    when the first candidate fails. *)
Theorem first_candidate_decides (pre post : list bitrow) (r : bitrow) :
  Forall (fun r0 : bitrow => (length r0 <= 130)%nat) pre ->
  (length pre < 256)%nat ->
  (130 < length r)%nat ->
  somfy_rts_callback (pre ++ r :: post) = somfy_rts_callback [r].
Proof.
  intros Hpre Hn Hr.
  assert (Hmod : (length pre mod 256 = length pre)%nat) by (apply Nat.mod_small; lia).
  assert (Hnth : nth (length pre) (pre ++ r :: post) [] = nth 0 [r] []).
  { by rewrite nth_middle. }
  unfold somfy_rts_callback, somfy_rts_frame.
  rewrite (scan_rows_skip pre (r :: post) 0 Hpre). cbn [scan_rows Nat.add].
  destruct (Nat.ltb_spec 170 (length r)) as [H170 | H170].
  - unfold retransmission_locals.
    cbn [data_start decode_row preamble_pattern preamble_pattern_bit_length].
    rewrite Hmod. change (0 mod 256)%nat with 0%nat.
    rewrite (search_row_only _ [r] _ 0 _ _ Hnth), (manchester_row_only _ [r] _ 0 _ _ _ Hnth).
    cbn [Nat.eqb]. destruct (negb _); [reflexivity |].
    destruct (bitbuffer_manchester_decode _ _ _ _ _) as [ipos dec].
    destruct (_ <? _)%nat; [reflexivity |].
    unfold somfy_rts_output. destruct (negb _); [reflexivity |].
    unfold somfy_rts_data. reflexivity.
  - destruct (Nat.ltb_spec 130 (length r)) as [_ | H130]; [| lia].
    unfold first_frame_locals.
    cbn [data_start decode_row preamble_pattern preamble_pattern_bit_length].
    rewrite Hmod. change (0 mod 256)%nat with 0%nat.
    rewrite (search_row_only _ [r] _ 0 _ _ Hnth), (manchester_row_only _ [r] _ 0 _ _ _ Hnth).
    cbn [Nat.eqb]. destruct (negb _); [reflexivity |].
    destruct (bitbuffer_manchester_decode _ _ _ _ _) as [ipos dec].
    destruct (_ <? _)%nat; [reflexivity |].
    unfold somfy_rts_output. destruct (negb _); [reflexivity |].
    unfold somfy_rts_data. reflexivity.
Qed.

Lemma first_candidate_decides_witness :
  (Forall (fun r0 : bitrow => (length r0 <= 130)%nat) [replicate 16 true]
   /\ (length [replicate 16 true] < 256)%nat
   /\ (130 < length (flip_bit (frame_row (first_frame_locals 0) demo_message) 30))%nat)
  /\ somfy_rts_callback
       ([replicate 16 true]
          ++ flip_bit (frame_row (first_frame_locals 0) demo_message) 30
          :: [frame_row (retransmission_locals 0) demo_message])
     = somfy_rts_callback [flip_bit (frame_row (first_frame_locals 0) demo_message) 30]
  /\ somfy_rts_callback [flip_bit (frame_row (first_frame_locals 0) demo_message) 30]
     = (DECODE_FAIL_MIC, None).
Proof.
  assert (H1 : Forall (fun r0 : bitrow => (length r0 <= 130)%nat) [replicate 16 true]).
  { constructor; [vm_compute; lia | constructor]. }
  assert (H2 : (length [replicate 16 true] < 256)%nat) by (simpl; lia).
  assert (H3 : (130 < length (flip_bit (frame_row (first_frame_locals 0) demo_message) 30))%nat).
  { vm_compute. lia. }
  split; [by repeat split |]. split.
  - exact (first_candidate_decides [replicate 16 true]
             [frame_row (retransmission_locals 0) demo_message] _ H1 H2 H3).
  - vm_compute. reflexivity.
Defined.

(** ** When the capture is no frame *)

Lemma scan_rows_data_start_0 (rows : list bitrow) (i : nat) :
  data_start (scan_rows rows i) = 0%nat ->
  Forall (fun r : bitrow => (length r <= 130)%nat) rows.
Proof.
  revert i. induction rows as [| r rows IH]; intros i; simpl; [constructor |].
  destruct (Nat.ltb_spec 170 (length r)) as [? | H170]; [discriminate |].
  destruct (Nat.ltb_spec 130 (length r)) as [? | H130]; [discriminate |].
  intros Hds. constructor; [assumption | by apply (IH (S i))].
Qed.

Lemma bitbuffer_search_prefix (b : bitbuffer_t) (row : nat) (pattern : list Z) (n : nat) :
  (0 < length (nth row b []))%nat ->
  take n (bits_of_bytes pattern) `prefix_of` nth row b [] ->
  bitbuffer_search b row 0 pattern n = 0%nat.
Proof.
  unfold bitbuffer_search. set (r := nth row b []). set (pat := take n _).
  intros Hlen [k Hk]. rewrite Nat.sub_0_r.
  destruct (length r) as [| m] eqn:Hr; [lia |]. cbn [search_from].
  unfold match_at. rewrite drop_0, Hk, take_app_length. by rewrite bool_decide_eq_true_2.
Qed.

(** X3: the callback fails with DECODE_FAIL_SANITY in two cases and no
    other: no row of the capture is longer than 130 bits, or the selected
    row does not start with the preamble of its variant. *)
Theorem sanity_failure_iff (bitbuffer : bitbuffer_t) :
  (num_rows bitbuffer <= 256)%nat ->
  ((somfy_rts_callback bitbuffer).1 = DECODE_FAIL_SANITY
   <-> Forall (fun r : bitrow => (length r <= 130)%nat) bitbuffer
       \/ ~ preamble_bits (scan_rows bitbuffer 0) `prefix_of` selected_row bitbuffer).
Proof.
  intros Hn. split.
  - unfold somfy_rts_callback, somfy_rts_frame.
    destruct (Nat.eqb_spec (data_start (scan_rows bitbuffer 0)) 0) as [H0 | H0].
    { intros _. left. by apply (scan_rows_data_start_0 bitbuffer 0). }
    destruct (selected_row_long bitbuffer Hn H0) as [Hlong _].
    destruct (Nat.eqb_spec
                (bitbuffer_search bitbuffer (decode_row (scan_rows bitbuffer 0)) 0
                   (preamble_pattern (scan_rows bitbuffer 0))
                   (preamble_pattern_bit_length (scan_rows bitbuffer 0))) 0) as [Hs | Hs].
    + cbn [negb].
      destruct (bitbuffer_manchester_decode _ _ _ _ _) as [ipos dec].
      destruct (_ <? _)%nat; [discriminate |].
      unfold somfy_rts_output. destruct (negb _); discriminate.
    + intros _. right. intros Hpre. apply Hs.
      apply bitbuffer_search_prefix; [| exact Hpre].
      unfold selected_row in Hlong. lia.
  - intros [Hshort | Hpre].
    + unfold somfy_rts_callback, somfy_rts_frame.
      by rewrite (scan_rows_none bitbuffer 0 Hshort).
    + unfold somfy_rts_callback, somfy_rts_frame.
      destruct (Nat.eqb_spec (data_start (scan_rows bitbuffer 0)) 0) as [H0 | H0];
        [reflexivity |].
      destruct (selected_row_long bitbuffer Hn H0) as [Hlong _].
      destruct (Nat.eqb_spec
                  (bitbuffer_search bitbuffer (decode_row (scan_rows bitbuffer 0)) 0
                     (preamble_pattern (scan_rows bitbuffer 0))
                     (preamble_pattern_bit_length (scan_rows bitbuffer 0))) 0) as [Hs | Hs];
        [| reflexivity].
      apply bitbuffer_search_0 in Hs as [Hempty | Hfound].
      * unfold selected_row in Hlong. lia.
      * by destruct Hpre.
Qed.

Lemma sanity_failure_iff_witness :
  (num_rows shifted_first <= 256)%nat
  /\ (Forall (fun r : bitrow => (length r <= 130)%nat) shifted_first
      \/ ~ preamble_bits (scan_rows shifted_first 0) `prefix_of` selected_row shifted_first).
Proof.
  assert (Hn : (num_rows shifted_first <= 256)%nat) by (vm_compute; lia).
  split; [exact Hn |].
  apply (proj1 (sanity_failure_iff shifted_first Hn)). vm_compute. reflexivity.
Defined.

(** ** The variant and the counter *)

(** X4: the retransmission field of a decoded frame is "TRUE" when the row
    it was decoded from is longer than 170 bits and "FALSE" otherwise. *)
Theorem retransmission_flag (bitbuffer : bitbuffer_t) :
  (num_rows bitbuffer <= 256)%nat ->
  (somfy_rts_callback bitbuffer).1 = DECODED ->
  exists rec, (somfy_rts_callback bitbuffer).2 = Some rec
    /\ data_get rec "retransmission"
       = Some (DATA_STRING (if (170 <? length (selected_row bitbuffer))%nat
                            then "TRUE" else "FALSE")).
Proof.
  intros Hn H.
  destruct (somfy_rts_callback_success _ H) as (l & d & Hf & _ & _ & _ & Hcb).
  destruct (somfy_rts_frame_inr _ _ _ Hf) as (Hl & _ & _).
  exists (somfy_rts_data l d). split; [by rewrite Hcb |].
  unfold selected_row, num_rows in *. rewrite <- Hl.
  destruct (scan_rows_cases bitbuffer 0) as [Hinit | (k & Hk & Hlen & Hscan)].
  - exfalso. unfold somfy_rts_frame in Hf. rewrite Hinit in Hf. discriminate Hf.
  - assert (Hmod : (k mod 256 = k)%nat) by (apply Nat.mod_small; lia).
    rewrite Hl, Hscan.
    destruct (170 <? length (nth k bitbuffer []))%nat eqn:E;
      unfold retransmission_locals, first_frame_locals; cbn [decode_row];
      rewrite Nat.add_0_l, Hmod, E; reflexivity.
Qed.

Lemma retransmission_flag_witness :
  ((num_rows demo_retransmission <= 256)%nat
   /\ (somfy_rts_callback demo_retransmission).1 = DECODED)
  /\ exists rec, (somfy_rts_callback demo_retransmission).2 = Some rec
       /\ data_get rec "retransmission" = Some (DATA_STRING "TRUE").
Proof.
  assert (Hn : (num_rows demo_retransmission <= 256)%nat) by (vm_compute; lia).
  assert (H : (somfy_rts_callback demo_retransmission).1 = DECODED) by (vm_compute; reflexivity).
  split; [by split |].
  destruct (retransmission_flag demo_retransmission Hn H) as (rec & Hrec & Hflag).
  exists rec. split; [exact Hrec |]. rewrite Hflag. vm_compute. reflexivity.
Defined.

(** X5: the counter of a decoded frame is the 16-bit big-endian number of
    the descrambled bytes 2 and 3: byte 2 times 256 plus byte 3. *)
Theorem counter_big_endian (bitbuffer : bitbuffer_t) (l : scan_locals) (d : list Z) :
  somfy_rts_frame bitbuffer = inr (l, d) ->
  checksum_fold d = 0 ->
  exists rec, somfy_rts_callback bitbuffer = (DECODED, Some rec)
    /\ data_get rec "counter" = Some (DATA_INT (nth 2 d 0 * 256 + nth 3 d 0))
    /\ 0 <= nth 2 d 0 * 256 + nth 3 d 0 < 65536.
Proof.
  intros Hf Hck. destruct (somfy_rts_frame_inr _ _ _ Hf) as (_ & Hlen & Hb).
  pose proof (nth_is_byte d 2 Hb) as H2. pose proof (nth_is_byte d 3 Hb) as H3.
  unfold is_byte in H2, H3.
  exists (somfy_rts_data l d). split; [| split; [| lia]].
  - rewrite (somfy_rts_callback_frame _ _ _ Hf), Hck. reflexivity.
  - destruct (somfy_rts_data_fields l d) as (_ & _ & Hc & _).
    rewrite Hc, Z.lor_comm, lor_shiftl_add by lia.
    unfold uint16. rewrite Z.mod_small by lia. reflexivity.
Qed.

Lemma counter_big_endian_witness :
  (somfy_rts_frame two_candidates = inr (first_frame_locals 0, demo_message)
   /\ checksum_fold demo_message = 0)
  /\ exists rec, somfy_rts_callback two_candidates = (DECODED, Some rec)
       /\ data_get rec "counter" = Some (DATA_INT 5).
Proof.
  assert (Hf : somfy_rts_frame two_candidates = inr (first_frame_locals 0, demo_message))
    by (vm_compute; reflexivity).
  assert (Hck : checksum_fold demo_message = 0) by (vm_compute; reflexivity).
  split; [by split |].
  destruct (counter_big_endian two_candidates _ _ Hf Hck) as (rec & Hcb & Hc & _).
  exists rec. split; [exact Hcb | exact Hc].
Defined.

(** ** The address and the identifier *)

Lemma hex02X_inj (a b : Z) : is_byte a -> is_byte b -> hex02X a = hex02X b -> a = b.
Proof.
  intros Ha Hb Heq.
  pose proof (forall_byte2
    (fun a b => implb (String.eqb (hex02X a) (hex02X b)) (a =? b))
    ltac:(vm_compute; reflexivity) a b Ha Hb) as H.
  cbv beta in H. rewrite (proj2 (String.eqb_eq _ _) Heq) in H. simpl in H. lia.
Qed.

Lemma address_hex_inj (a b c a' b' c' : Z) :
  is_byte a -> is_byte b -> is_byte c -> is_byte a' -> is_byte b' -> is_byte c' ->
  (hex02X a +:+ hex02X b +:+ hex02X c = hex02X a' +:+ hex02X b' +:+ hex02X c')%string ->
  a = a' /\ b = b' /\ c = c'.
Proof.
  intros Ha Hb Hc Ha' Hb' Hc' H. unfold hex02X in H. cbn [String.append] in H.
  injection H as h1 h2 h3 h4 h5 h6.
  repeat split; apply hex02X_inj; try assumption; unfold hex02X; congruence.
Qed.

(** X6: the identifier and the address string of a decoded frame carry the
    same three bytes: two decoded frames have the same id exactly when they
    have the same address, and an id is below 2^24. *)
Theorem id_address_agree (bitbuffer1 bitbuffer2 : bitbuffer_t) (rec1 rec2 : data_t) :
  (somfy_rts_callback bitbuffer1).2 = Some rec1 ->
  (somfy_rts_callback bitbuffer2).2 = Some rec2 ->
  (data_get rec1 "id" = data_get rec2 "id"
   <-> data_get rec1 "address" = data_get rec2 "address")
  /\ exists id, data_get rec1 "id" = Some (DATA_INT id) /\ 0 <= id < 16777216.
Proof.
  intros H1 H2.
  destruct (somfy_rts_callback_decoded _ _ H1) as (l1 & d1 & _ & _ & Hb1 & _ & ->).
  destruct (somfy_rts_callback_decoded _ _ H2) as (l2 & d2 & _ & _ & Hb2 & _ & ->).
  destruct (somfy_rts_data_fields l1 d1) as (Hid1 & _ & _ & Ha1).
  destruct (somfy_rts_data_fields l2 d2) as (Hid2 & _ & _ & Ha2).
  rewrite Hid1, Hid2, Ha1, Ha2.
  rewrite !address_int_le_bytes by (by apply nth_is_byte).
  pose proof (nth_is_byte d1 4 Hb1) as B14. pose proof (nth_is_byte d1 5 Hb1) as B15.
  pose proof (nth_is_byte d1 6 Hb1) as B16. pose proof (nth_is_byte d2 4 Hb2) as B24.
  pose proof (nth_is_byte d2 5 Hb2) as B25. pose proof (nth_is_byte d2 6 Hb2) as B26.
  split.
  - split.
    + intros [= Hid]. unfold is_byte in *.
      assert (nth 4 d1 0 = nth 4 d2 0 /\ nth 5 d1 0 = nth 5 d2 0 /\ nth 6 d1 0 = nth 6 d2 0)
        as (-> & -> & ->) by lia.
      reflexivity.
    + intros Haddr.
      apply (f_equal (fun o : option data_value =>
                        match o with Some (DATA_STRING a) => a | _ => EmptyString end))
        in Haddr.
      cbv beta iota in Haddr.
      destruct (address_hex_inj _ _ _ _ _ _ B14 B15 B16 B24 B25 B26 Haddr) as (-> & -> & ->).
      reflexivity.
  - eexists. split; [reflexivity |]. unfold is_byte in *. lia.
Qed.

Lemma id_address_agree_witness :
  ((somfy_rts_callback demo_first).2
   = Some (somfy_rts_data (first_frame_locals 0) demo_message)
   /\ (somfy_rts_callback demo_retransmission).2
      = Some (somfy_rts_data (retransmission_locals 1) demo_message))
  /\ (data_get (somfy_rts_data (first_frame_locals 0) demo_message) "id"
      = data_get (somfy_rts_data (retransmission_locals 1) demo_message) "id"
      <-> data_get (somfy_rts_data (first_frame_locals 0) demo_message) "address"
          = data_get (somfy_rts_data (retransmission_locals 1) demo_message) "address").
Proof.
  assert (H1 : (somfy_rts_callback demo_first).2
               = Some (somfy_rts_data (first_frame_locals 0) demo_message))
    by (vm_compute; reflexivity).
  assert (H2 : (somfy_rts_callback demo_retransmission).2
               = Some (somfy_rts_data (retransmission_locals 1) demo_message))
    by (vm_compute; reflexivity).
  split; [exact (conj H1 H2) |].
  exact (proj1 (id_address_agree demo_first demo_retransmission _ _ H1 H2)).
Defined.

(** ** Detection of a damaged nibble *)

(** X7: when a frame is decoded, any frame whose descrambled bytes differ
    from its own in one nibble only is rejected with DECODE_FAIL_MIC. *)
Theorem one_nibble_rejected (bitbuffer bitbuffer' : bitbuffer_t) (l l' : scan_locals)
    (d : list Z) (i : nat) (delta : Z) :
  somfy_rts_frame bitbuffer = inr (l, d) ->
  (somfy_rts_callback bitbuffer).1 = DECODED ->
  (i < 7)%nat -> in_one_nibble delta ->
  somfy_rts_frame bitbuffer' = inr (l', <[ i := Z.lxor (nth i d 0) delta ]> d) ->
  somfy_rts_callback bitbuffer' = (DECODE_FAIL_MIC, None).
Proof.
  intros Hf Hok Hi (Hdb & Hd0 & Hnib) Hf'.
  destruct (somfy_rts_frame_inr _ _ _ Hf) as (_ & Hlen & Hb).
  rewrite (somfy_rts_callback_frame _ _ _ Hf) in Hok.
  destruct (Z.eqb_spec (checksum_fold d) 0) as [Hck | Hck]; [| discriminate Hok].
  rewrite (somfy_rts_callback_frame _ _ _ Hf').
  pose proof (single_nibble_detected d i delta Hlen Hb Hck Hi Hdb Hd0 Hnib) as Hbad.
  destruct (Z.eqb_spec (checksum_fold (<[ i := Z.lxor (nth i d 0) delta ]> d)) 0);
    [contradiction | reflexivity].
Qed.

Lemma one_nibble_rejected_witness :
  (somfy_rts_frame demo_first = inr (first_frame_locals 0, demo_message)
   /\ (somfy_rts_callback demo_first).1 = DECODED
   /\ (3 < 7)%nat /\ in_one_nibble 0x40
   /\ somfy_rts_frame
        [frame_row (first_frame_locals 0) [0xA1; 0x2C; 0x00; 0x45; 0x01; 0x02; 0x03]]
      = inr (first_frame_locals 0, <[ 3%nat := Z.lxor (nth 3 demo_message 0) 0x40 ]> demo_message))
  /\ somfy_rts_callback
       [frame_row (first_frame_locals 0) [0xA1; 0x2C; 0x00; 0x45; 0x01; 0x02; 0x03]]
     = (DECODE_FAIL_MIC, None).
Proof.
  assert (Hf : somfy_rts_frame demo_first = inr (first_frame_locals 0, demo_message))
    by (vm_compute; reflexivity).
  assert (Hok : (somfy_rts_callback demo_first).1 = DECODED) by (vm_compute; reflexivity).
  assert (Hi : (3 < 7)%nat) by lia.
  assert (Hd : in_one_nibble 0x40).
  { unfold in_one_nibble, is_byte. repeat split; try lia. right. reflexivity. }
  assert (Hf' : somfy_rts_frame
                  [frame_row (first_frame_locals 0) [0xA1; 0x2C; 0x00; 0x45; 0x01; 0x02; 0x03]]
                = inr (first_frame_locals 0,
                       <[ 3%nat := Z.lxor (nth 3 demo_message 0) 0x40 ]> demo_message))
    by (vm_compute; reflexivity).
  split; [exact (conj Hf (conj Hok (conj Hi (conj Hd Hf')))) |].
  exact (one_nibble_rejected _ _ _ _ _ _ _ Hf Hok Hi Hd Hf').
Defined.

(** ** Descrambling loses nothing *)

(** X8: scrambling the bytes the descrambling loop produced gives the
    received bytes back, so two different received messages never
    descramble to the same bytes. *)
Theorem scramble_descramble (s : list Z) :
  length s = 7%nat ->
  scramble (descramble s) = s
  /\ (forall s', length s' = 7%nat -> descramble s = descramble s' -> s = s').
Proof.
  assert (Hinv : forall t : list Z, length t = 7%nat -> scramble (descramble t) = t).
  { intros t Ht. list7 t Ht. rewrite descramble_7. unfold scramble. simpl scramble_from.
    by rewrite !lxor_cancel_r. }
  intros Hlen. split; [by apply Hinv |].
  intros s' Hlen' Heq.
  rewrite <- (Hinv s Hlen), <- (Hinv s' Hlen'). by rewrite Heq.
Qed.

Lemma scramble_descramble_witness :
  length (scramble demo_message) = 7%nat
  /\ scramble (descramble (scramble demo_message)) = scramble demo_message.
Proof.
  assert (Hlen : length (scramble demo_message) = 7%nat) by reflexivity.
  split; [exact Hlen |].
  exact (proj1 (scramble_descramble (scramble demo_message) Hlen)).
Defined.

(** ** From the fields to the record and back *)

Lemma nibble_fold_range (x : Z) : is_byte x -> 0 <= nibble_fold x < 16.
Proof.
  intros Hx.
  pose proof (forall_byte (fun x => (0 <=? nibble_fold x) && (nibble_fold x <? 16))
                ltac:(vm_compute; reflexivity) x Hx) as H.
  cbv beta in H. lia.
Qed.

Lemma nibble_fold_nibble (c : Z) : 0 <= c < 16 -> nibble_fold c = c.
Proof.
  intros Hc.
  pose proof (forall_byte (fun c => implb (c <? 16) (nibble_fold c =? c))
                ltac:(vm_compute; reflexivity) c ltac:(unfold is_byte; lia)) as H.
  cbv beta in H. destruct (Z.ltb_spec c 16); [simpl in H; lia | lia].
Qed.

Lemma high_nibble_add (control c : Z) :
  0 <= control < 16 -> 0 <= c < 16 -> 16 * control + c = Z.lxor (16 * control) c.
Proof.
  intros Hctl Hc. apply Z.add_nocarry_lxor.
  replace (16 * control) with (Z.shiftl control 4) by (rewrite Z.shiftl_mul_pow2; lia).
  apply Z.bits_inj'. intros k Hk. rewrite Z.land_spec, Z.bits_0.
  destruct (Z.lt_ge_cases k 4).
  - by rewrite Z.shiftl_spec_low.
  - rewrite <- (Z.mod_small c (2 ^ 4)) by lia.
    rewrite Z.mod_pow2_bits_high by lia. apply andb_false_r.
Qed.

(** The message of the protocol notes is made of bytes, carries its fields
    where the callback reads them, and passes the checksum. *)
Lemma frame_message_spec (seed control counter a4 a5 a6 : Z) :
  is_byte seed -> 0 <= control < 16 -> 0 <= counter < 65536 ->
  is_byte a4 -> is_byte a5 -> is_byte a6 ->
  exists chk, 0 <= chk < 16
    /\ frame_message seed control counter a4 a5 a6
       = [seed; 16 * control + chk; counter / 256; counter mod 256; a4; a5; a6]
    /\ Forall is_byte (frame_message seed control counter a4 a5 a6)
    /\ checksum_fold (frame_message seed control counter a4 a5 a6) = 0.
Proof.
  intros Hs Hctl Hcnt H4 H5 H6. unfold frame_message.
  set (unchecked := [seed; 16 * control; counter / 256; counter mod 256; a4; a5; a6]).
  assert (Hhi : is_byte (counter / 256)).
  { unfold is_byte. split; [apply Z.div_pos; lia | apply Z.div_lt_upper_bound; lia]. }
  assert (Hlo : is_byte (counter mod 256)) by (apply Z.mod_pos_bound; lia).
  assert (Hub : Forall is_byte unchecked).
  { unfold unchecked. repeat constructor; try assumption; unfold is_byte in *; lia. }
  pose proof (nibble_fold_range _ (xor_all_byte _ Hub)) as Hchk.
  fold (checksum_fold unchecked) in Hchk. set (chk := checksum_fold unchecked) in *.
  assert (Hm : with_chksum_nibble unchecked chk
               = [seed; 16 * control + chk; counter / 256; counter mod 256; a4; a5; a6]).
  { unfold with_chksum_nibble, unchecked. cbn [nth insert list_insert].
    by replace (16 * control / 16) with control
      by (by rewrite Z.mul_comm, Z.div_mul by lia). }
  exists chk. split; [exact Hchk |]. split; [exact Hm |]. split.
  - rewrite Hm. unfold unchecked in Hub.
    repeat match goal with H : Forall _ (_ :: _) |- _ => apply Forall_cons in H as [? H] end.
    repeat constructor; try assumption; unfold is_byte in *; lia.
  - assert (Hx : with_chksum_nibble unchecked chk
                 = <[ 1%nat := Z.lxor (nth 1 unchecked 0) chk ]> unchecked).
    { rewrite Hm. unfold unchecked. cbn [nth insert list_insert].
      by rewrite high_nibble_add. }
    rewrite Hx. unfold checksum_fold at 1.
    rewrite xor_all_insert by (unfold unchecked; simpl; lia).
    rewrite nibble_fold_lxor by (by apply xor_all_byte || (unfold is_byte; lia)).
    fold (checksum_fold unchecked). fold chk.
    rewrite (nibble_fold_nibble chk Hchk). apply Z.lxor_nilpotent.
Qed.

(** X9: a remote's message, laid out as the protocol notes say with the
    checksum nibble the XOR of all the other nibbles, scrambled, Manchester
    encoded and put behind the preamble of either variant, is decoded to the
    record of exactly its fields, whatever its seed. *)
Theorem frame_message_round_trip (l : scan_locals) (seed control counter a4 a5 a6 : Z) :
  l = first_frame_locals 0 \/ l = retransmission_locals 0 ->
  is_byte seed -> 0 <= control < 16 -> 0 <= counter < 65536 ->
  is_byte a4 -> is_byte a5 -> is_byte a6 ->
  somfy_rts_callback [frame_row l (frame_message seed control counter a4 a5 a6)]
  = (DECODED, Some (fields_record l control counter a4 a5 a6)).
Proof.
  intros Hl Hs Hctl Hcnt H4 H5 H6.
  destruct (frame_message_spec seed control counter a4 a5 a6 Hs Hctl Hcnt H4 H5 H6)
    as (chk & Hchk & Hm & Hb & Hck).
  assert (Hlen : length (frame_message seed control counter a4 a5 a6) = 7%nat)
    by (by rewrite Hm).
  rewrite (somfy_rts_callback_frame_row l _ Hl Hlen Hb), Hck, Hm.
  cbn [Z.eqb]. unfold somfy_rts_data, fields_record. cbn [nth]. cbv zeta.
  assert (Hb1 : is_byte (16 * control + chk)) by (unfold is_byte; lia).
  destruct (control_nibble _ Hb1) as [-> _].
  replace ((16 * control + chk) / 16) with control
    by (apply (Z.div_unique (16 * control + chk) 16 control chk); lia).
  rewrite address_int_le_bytes by assumption.
  rewrite (Z.lor_comm (counter mod 256)), lor_shiftl_add
    by (try apply Z.mod_pos_bound; lia).
  replace (counter / 256 * 2 ^ 8 + counter mod 256) with counter
    by (pose proof (Z.div_mod counter 256); lia).
  unfold uint16. rewrite Z.mod_small by lia. reflexivity.
Qed.

Lemma frame_message_round_trip_witness :
  (is_byte 0xA1 /\ 0 <= 2 < 16 /\ 0 <= 5 < 65536 /\ is_byte 1 /\ is_byte 2 /\ is_byte 3)
  /\ frame_message 0xA1 2 5 1 2 3 = demo_message
  /\ somfy_rts_callback [frame_row (retransmission_locals 0) (frame_message 0xA1 2 5 1 2 3)]
     = (DECODED, Some (fields_record (retransmission_locals 0) 2 5 1 2 3))
  /\ data_get (fields_record (retransmission_locals 0) 2 5 1 2 3) "address"
     = Some (DATA_STRING "010203").
Proof.
  assert (Hs : is_byte 0xA1) by (unfold is_byte; lia).
  assert (H1 : is_byte 1) by (unfold is_byte; lia).
  assert (H2 : is_byte 2) by (unfold is_byte; lia).
  assert (H3 : is_byte 3) by (unfold is_byte; lia).
  assert (Hctl : 0 <= 2 < 16) by lia.
  assert (Hcnt : 0 <= 5 < 65536) by lia.
  split; [exact (conj Hs (conj Hctl (conj Hcnt (conj H1 (conj H2 H3))))) |].
  split; [vm_compute; reflexivity |].
  split; [| vm_compute; reflexivity].
  exact (frame_message_round_trip (retransmission_locals 0) 0xA1 2 5 1 2 3
           (or_intror eq_refl) Hs Hctl Hcnt H1 H2 H3).
Defined.
